(** * Court Document Analyzer: upload / inquiry orchestration of [src/App.js]

    A shallow embedding of the React component [App]: its state
    variables, the three event handlers ([handleFileChange],
    [handleUpload], [handleSendMessage]), the liveness probe
    ([checkServerHealth]) and the [axiosRetry] configuration.

    Handlers are [async] functions.  Each is embedded as a resumption
    ([proc]): a finite tree of state-setter calls and console calls that
    suspends at every [await] on a network request and resumes with the
    outcome of that request.  A small scheduler ([sys], [invoke],
    [settle]) runs resumptions, so interleavings of several handler
    invocations can be expressed. *)

From Stdlib Require Import ZArith NArith List String Ascii Bool Lia.
From Stdlib Require Import Floats.SpecFloat.
From stdpp Require Import base option list gmap.

#[local] Set Warnings "-register-all".
#[local] Open Scope Z_scope.

(** ** JavaScript values *)

(** A JavaScript string is a sequence of UTF-16 code units. *)
Abbreviation jsstring := (list N).

(** String literals of the source, written as Rocq strings. *)
Definition lit (s : string) : jsstring :=
  map N_of_ascii (list_ascii_of_string s).

(** Values that cross the boundary with the remote service: whatever
    [JSON.parse] can produce, plus [undefined].  Numbers are IEEE 754
    doubles; objects are finite maps from property names. *)
Inductive jsval :=
| JUndefined
| JNull
| JBool (b : bool)
| JNum (x : spec_float)
| JStr (s : jsstring)
| JArr (l : list jsval)
| JObj (o : gmap jsstring jsval).

(** [ToBoolean]: the falsy values are [undefined], [null], [false],
    [+0], [-0], [NaN] and the empty string. *)
Definition truthy (v : jsval) : bool :=
  match v with
  | JUndefined | JNull => false
  | JBool b => b
  | JNum (S754_zero _) | JNum S754_nan => false
  | JNum _ => true
  | JStr s => match s with [] => false | _ => true end
  | JArr _ | JObj _ => true
  end.

(** [typeof v === 'object'] (true for [null] and for arrays too). *)
Definition typeof_object (v : jsval) : bool :=
  match v with
  | JNull | JArr _ | JObj _ => true
  | _ => false
  end.

(** [a || b]. *)
Definition js_or (a b : jsval) : jsval := if truthy a then a else b.

(** [v.k] for a property name [k] that no prototype defines (the source
    reads [summary], [case_id], [filename], [reply] and [error] only).
    Reading a property of [undefined] or [null] throws a [TypeError]
    ([None]); on a primitive or an array the property is absent. *)
Definition get_prop (v : jsval) (k : jsstring) : option jsval :=
  match v with
  | JUndefined | JNull => None
  | JObj o => Some (default JUndefined (o !! k))
  | _ => Some JUndefined
  end.

(** [v?.k]: short-circuits to [undefined] where [v.k] would throw. *)
Definition opt_prop (v : jsval) (k : jsstring) : jsval :=
  default JUndefined (get_prop v k).

(** [v === s] for a string literal [s]. *)
Definition strict_eq_str (v : jsval) (s : jsstring) : bool :=
  match v with
  | JStr t => bool_decide (t = s)
  | _ => false
  end.

(** *** String operations used by the handlers *)

(** ECMAScript [WhiteSpace] and [LineTerminator] code units, the ones
    [String.prototype.trim] strips. *)
Definition is_white_space (c : N) : bool :=
  ((c =? 9) || (c =? 10) || (c =? 11) || (c =? 12) || (c =? 13)
   || (c =? 32) || (c =? 160) || (c =? 5760)
   || ((8192 <=? c) && (c <=? 8202))
   || (c =? 8232) || (c =? 8233) || (c =? 8239) || (c =? 8287)
   || (c =? 12288) || (c =? 65279))%N.

Fixpoint trim_start (s : jsstring) : jsstring :=
  match s with
  | c :: s' => if is_white_space c then trim_start s' else s
  | [] => []
  end.

(** [s.trim()] *)
Definition trim (s : jsstring) : jsstring :=
  rev (trim_start (rev (trim_start s))).

Fixpoint starts_with (s p : jsstring) : bool :=
  match p, s with
  | [], _ => true
  | a :: p', b :: s' => (a =? b)%N && starts_with s' p'
  | _ :: _, [] => false
  end.

(** [s.includes(sub)] *)
Fixpoint includes (s sub : jsstring) : bool :=
  starts_with s sub ||
  match s with
  | [] => false
  | _ :: s' => includes s' sub
  end.

(** ** The transport boundary *)

(** An axios response: the parsed body and the HTTP status. *)
Record response := { data : jsval; status : Z }.

(** What a rejected axios call (or a [throw] in a handler) carries:
    [err.message], [err.code] and [err.response] ([None] is
    [undefined]: no response was received). *)
Record jserror := {
  message : jsstring;
  code : jsval;
  err_response : option response
}.

(** [new Error(msg)] *)
Definition Error (msg : jsstring) : jserror :=
  {| message := msg; code := JUndefined; err_response := None |}.

(** The [TypeError] raised by reading property [k] of [v], for [v] one
    of [null] and [undefined] (message text as V8 produces it; only the
    console output ever sees it). *)
Definition TypeError (v : jsval) (k : jsstring) : jserror :=
  Error (lit "Cannot read properties of "
           ++ (match v with JNull => lit "null" | _ => lit "undefined" end)
           ++ lit " (reading '" ++ k ++ lit "')").

(** How an awaited axios call ends. *)
Inductive outcome :=
| Resolved (res : response)
| Rejected (err : jserror).

(** [err.response?.data?.error] *)
Definition response_error (err : jserror) : jsval :=
  match err_response err with
  | Some r => opt_prop (data r) (lit "error")
  | None => JUndefined
  end.

(** The selected document: a browser [File]. *)
Record File := { name : jsstring; content : jsstring; type : jsstring }.

(** The [file] state variable: [null] initially, [e.target.files[0]]
    afterwards, which is [undefined] when the selection is empty. *)
Inductive fileref :=
| FileNull
| FileUndefined
| FileObj (f : File).

Inductive reqbody :=
| FormData (fields : list (jsstring * File))
| Json (v : jsval).

(** Network calls issued by the component, with the [timeout] option
    given at the call site ([None]: the transport default). *)
Inductive request :=
| Get (url : string) (timeout : option Z)
| Post (url : string) (body : reqbody) (timeout : option Z).

(** ** Component state *)

Inductive Role := user | assistant.

Record Turn := { role : Role; turn_content : jsval }.

(** [uploadStatus]: [null], ['success'] or ['failed']. *)
Inductive upload_status := StatusNull | success | failed.

Record State := {
  file : fileref;
  summary : jsval;
  error : jsval;
  userMessage : jsstring;
  chatLog : list Turn;
  documentId : jsval;
  filename : jsval;
  isUploading : bool;
  uploadStatus : upload_status
}.

(** The [useState] defaults. *)
Definition init : State :=
  {| file := FileNull; summary := JStr []; error := JStr [];
     userMessage := []; chatLog := []; documentId := JStr [];
     filename := JStr []; isUploading := false;
     uploadStatus := StatusNull |}.

(** The state setters returned by [useState]. *)
Inductive setter :=
| setFile (f : fileref)
| setSummary (v : jsval)
| setError (v : jsval)
| setUserMessage (s : jsstring)
| setChatLog (l : list Turn)
| setDocumentId (v : jsval)
| setFilename (v : jsval)
| setIsUploading (b : bool)
| setUploadStatus (u : upload_status).

Definition apply_setter (u : setter) (s : State) : State :=
  match u with
  | setFile x =>
      {| file := x; summary := summary s; error := error s;
         userMessage := userMessage s; chatLog := chatLog s;
         documentId := documentId s; filename := filename s;
         isUploading := isUploading s; uploadStatus := uploadStatus s |}
  | setSummary x =>
      {| file := file s; summary := x; error := error s;
         userMessage := userMessage s; chatLog := chatLog s;
         documentId := documentId s; filename := filename s;
         isUploading := isUploading s; uploadStatus := uploadStatus s |}
  | setError x =>
      {| file := file s; summary := summary s; error := x;
         userMessage := userMessage s; chatLog := chatLog s;
         documentId := documentId s; filename := filename s;
         isUploading := isUploading s; uploadStatus := uploadStatus s |}
  | setUserMessage x =>
      {| file := file s; summary := summary s; error := error s;
         userMessage := x; chatLog := chatLog s;
         documentId := documentId s; filename := filename s;
         isUploading := isUploading s; uploadStatus := uploadStatus s |}
  | setChatLog x =>
      {| file := file s; summary := summary s; error := error s;
         userMessage := userMessage s; chatLog := x;
         documentId := documentId s; filename := filename s;
         isUploading := isUploading s; uploadStatus := uploadStatus s |}
  | setDocumentId x =>
      {| file := file s; summary := summary s; error := error s;
         userMessage := userMessage s; chatLog := chatLog s;
         documentId := x; filename := filename s;
         isUploading := isUploading s; uploadStatus := uploadStatus s |}
  | setFilename x =>
      {| file := file s; summary := summary s; error := error s;
         userMessage := userMessage s; chatLog := chatLog s;
         documentId := documentId s; filename := x;
         isUploading := isUploading s; uploadStatus := uploadStatus s |}
  | setIsUploading x =>
      {| file := file s; summary := summary s; error := error s;
         userMessage := userMessage s; chatLog := chatLog s;
         documentId := documentId s; filename := filename s;
         isUploading := x; uploadStatus := uploadStatus s |}
  | setUploadStatus x =>
      {| file := file s; summary := summary s; error := error s;
         userMessage := userMessage s; chatLog := chatLog s;
         documentId := documentId s; filename := filename s;
         isUploading := isUploading s; uploadStatus := x |}
  end.

(** ** Resumptions *)

(** The body of an [async] handler: setter calls and console calls in
    program order, suspended at each awaited request. *)
Inductive proc :=
| Ret
| Call (u : setter) (k : proc)
| Console (k : proc)
| Await (r : request) (k : outcome -> proc).

Notation "u ;> k" := (Call u k) (at level 60, right associativity).

(** [v.k] inside a [try] block: the read either continues with the
    value or transfers control to the [catch] clause. *)
Definition read (v : jsval) (k : jsstring)
    (catch : jserror -> proc) (cont : jsval -> proc) : proc :=
  match get_prop v k with
  | Some x => cont x
  | None => catch (TypeError v k)
  end.

(** ** The handlers of [App] *)

Definition health_url : string := "http://localhost:5001/health".
Definition upload_url : string := "http://localhost:5001/upload".
Definition chat_url : string := "http://localhost:5001/chat".

(** [axios.get('http://localhost:5001/health', { timeout: 2000 })] *)
Definition health_request : request := Get health_url (Some 2000).

(** [axios.post('http://localhost:5001/upload', formData, { ..., timeout: 30000 })]
    with [formData] holding the single field ['file']. *)
Definition upload_request (f : File) : request :=
  Post upload_url (FormData [(lit "file", f)]) (Some 30000).

(** [axios.post('http://localhost:5001/chat', { message, case_id })] *)
Definition chat_request (msg : jsstring) (case_id : jsval) : request :=
  Post chat_url
    (Json (JObj (<[lit "message" := JStr msg]> {[lit "case_id" := case_id]})))
    None.

(** [checkServerHealth]: resolves to [true] when the probe resolves and
    to [false], after logging, when it rejects; it never throws. *)
Definition checkServerHealth (k : bool -> proc) : proc :=
  Await health_request (fun o =>
    match o with
    | Resolved _ => k true
    | Rejected _ => Console (k false)
    end).

(** [handleFileChange]; [files] is [e.target.files]. *)
Definition handleFileChange (files : list File) : proc :=
  setFile (match files with f :: _ => FileObj f | [] => FileUndefined end) ;>
  setError (JStr (lit "")) ;>
  setUploadStatus StatusNull ;>
  Ret.

Definition cors_message : jsstring :=
  lit "CORS error: The frontend port does not match the allowed origin in the backend. Check the browser console for details.".

Definition upload_failure_message : jsstring :=
  lit "An error occurred during the upload process.".

Definition server_down_message : jsstring :=
  lit "Backend server is not running. Please start the server on http://localhost:5001 and try again.".

(** The message computed in the [catch] clause of [handleUpload]. *)
Definition upload_error_message (err : jserror) : jsval :=
  js_or (response_error err)
    (if includes (message err) (lit "Access-Control")
     then JStr cors_message
     else JStr upload_failure_message).

(** [!uploadRes.data || typeof uploadRes.data !== 'object'] *)
Definition invalid_body (d : jsval) : bool :=
  negb (truthy d) || negb (typeof_object d).

(** The [catch] and [finally] clauses of [handleUpload]. *)
Definition upload_catch (err : jserror) : proc :=
  Console (
    setError (upload_error_message err) ;>
    setUploadStatus failed ;>
    setIsUploading false ;>
    Ret).

(** [handleUpload], as rendered with the state [snap]: the closure reads
    [file] from the render it belongs to. *)
Definition handleUpload (snap : State) : proc :=
  match file snap with
  | FileNull | FileUndefined =>
      setError (JStr (lit "Please select a file to upload.")) ;>
      setUploadStatus failed ;>
      Ret
  | FileObj f =>
      setIsUploading true ;>
      setError (JStr (lit "")) ;>
      setUploadStatus StatusNull ;>
      checkServerHealth (fun isServerUp =>
        if negb isServerUp then
          setError (JStr server_down_message) ;>
          setIsUploading false ;>
          setUploadStatus failed ;>
          Ret
        else
          Await (upload_request f) (fun o =>
            match o with
            | Rejected err => upload_catch err
            | Resolved uploadRes =>
                Console (
                  let d := data uploadRes in
                  if invalid_body d then
                    upload_catch
                      (Error (lit "Invalid response format from server"))
                  else
                    read d (lit "summary") upload_catch (fun v_summary =>
                    setSummary
                      (js_or v_summary (JStr (lit "No summary available."))) ;>
                    read d (lit "case_id") upload_catch (fun v_case_id =>
                    setDocumentId (js_or v_case_id (JStr (lit ""))) ;>
                    read d (lit "filename") upload_catch (fun v_filename =>
                    setFilename (js_or v_filename (JStr (name f))) ;>
                    setChatLog [] ;>
                    setError (JStr (lit "")) ;>
                    setUploadStatus success ;>
                    setIsUploading false ;>
                    Ret))))
            end))
  end.

Definition chat_failure_message : jsstring :=
  lit "An error occurred while processing your request.".

(** [err.response?.data?.error || 'An error occurred while processing
    your request.'] *)
Definition chat_error_message (err : jserror) : jsval :=
  js_or (response_error err) (JStr chat_failure_message).

(** The [catch] clause of [handleSendMessage]. *)
Definition chat_catch (newChatLog : list Turn) (err : jserror) : proc :=
  Console (
    let errorMsg := chat_error_message err in
    setChatLog (newChatLog ++ [{| role := assistant; turn_content := errorMsg |}]) ;>
    setError errorMsg ;>
    Ret).

(** [handleSendMessage], as rendered with the state [snap]: the closure
    reads [userMessage], [chatLog] and [documentId] from its render. *)
Definition handleSendMessage (snap : State) : proc :=
  match trim (userMessage snap) with
  | [] =>
      setError (JStr (lit "Please enter a message to proceed.")) ;>
      Ret
  | _ :: _ =>
      let newChatLog :=
        chatLog snap ++
        [{| role := user; turn_content := JStr (userMessage snap) |}] in
      setChatLog newChatLog ;>
      setUserMessage (lit "") ;>
      setError (JStr (lit "")) ;>
      Await (chat_request (userMessage snap) (documentId snap)) (fun o =>
        match o with
        | Rejected err => chat_catch newChatLog err
        | Resolved res =>
            read (data res) (lit "reply") (chat_catch newChatLog) (fun reply =>
            setChatLog
              (newChatLog ++ [{| role := assistant; turn_content := reply |}]) ;>
            Ret)
        end)
  end.

(** ** Running handlers *)

(** What an execution does, in order. *)
Inductive event :=
| EvSet (u : setter)
| EvConsole
| EvSend (r : request).

(** The component between two events: the current state, the
    suspended handler invocations (each with the request it awaits) and
    everything done so far. *)
Record sys := {
  st : State;
  pending : list (request * (outcome -> proc));
  trace : list event
}.

Definition boot : sys := {| st := init; pending := []; trace := [] |}.

(** Runs a resumption up to its next [await] (or its end). *)
Fixpoint run (p : proc) (s : sys) : sys :=
  match p with
  | Ret => s
  | Call u k =>
      run k {| st := apply_setter u (st s); pending := pending s;
               trace := trace s ++ [EvSet u] |}
  | Console k =>
      run k {| st := st s; pending := pending s;
               trace := trace s ++ [EvConsole] |}
  | Await r k =>
      {| st := st s; pending := pending s ++ [(r, k)];
         trace := trace s ++ [EvSend r] |}
  end.

(** Calling a handler: the closure of the current render runs up to its
    first [await]. *)
Definition invoke (h : State -> proc) (s : sys) : sys := run (h (st s)) s.

(** The [i]-th outstanding request ends with [o]; the handler that
    awaits it resumes. *)
Definition settle (i : nat) (o : outcome) (s : sys) : sys :=
  match pending s !! i with
  | Some (_, k) =>
      run (k o) {| st := st s; pending := delete i (pending s);
                   trace := trace s |}
  | None => s
  end.

(** The requests sent in a trace, in order. *)
Fixpoint requests (t : list event) : list request :=
  match t with
  | [] => []
  | EvSend r :: t' => r :: requests t'
  | _ :: t' => requests t'
  end.

Definition is_upload_call (r : request) : bool :=
  match r with
  | Post url _ _ => bool_decide (url = upload_url)
  | Get _ _ => false
  end.

Definition is_chat_call (r : request) : bool :=
  match r with
  | Post url _ _ => bool_decide (url = chat_url)
  | Get _ _ => false
  end.

(** Number of calls to the upload endpoint in a trace. *)
Definition upload_calls (t : list event) : nat :=
  length (filter (fun r => is_upload_call r = true) (requests t)).

Definition chat_calls (t : list event) : nat :=
  length (filter (fun r => is_chat_call r = true) (requests t)).

(** *** The rendered controls *)

(** What the operator can do with the rendered page, and the network
    settling a request. *)
Inductive input :=
| ChangeFile (files : list File)
| ClickUpload
| TypeMessage (v : jsstring)
| ClickSend
| KeyPress (key : jsstring)
| Settle (i : nat) (o : outcome).

(** The upload button is rendered with [disabled={isUploading}]: while
    disabled it dispatches no click.  The inquiry input calls
    [handleSendMessage] on the Enter key. *)
Definition step (i : input) (s : sys) : sys :=
  match i with
  | ChangeFile files => run (handleFileChange files) s
  | ClickUpload =>
      if isUploading (st s) then s else invoke handleUpload s
  | TypeMessage v => run (setUserMessage v ;> Ret) s
  | ClickSend => invoke handleSendMessage s
  | KeyPress key =>
      if bool_decide (key = lit "Enter") then invoke handleSendMessage s
      else s
  | Settle n o => settle n o s
  end.

Definition steps (l : list input) (s : sys) : sys :=
  fold_left (fun acc i => step i acc) l s.

(** *** Uninterrupted attempts *)

(** One [upload()] attempt carried to its end with nothing else running
    in between: the handler is called, the liveness probe ends with
    [probe] and, if the handler then posts the document, that call ends
    with [post]. *)
Definition upload (probe post : outcome) (s : sys) : sys :=
  let n := length (pending s) in
  settle n post (settle n probe (invoke handleUpload s)).

(** One [ask()] carried to its end: the handler is called with the
    pending input of the current render and the inquiry call, if one is
    made, ends with [o]. *)
Definition ask (o : outcome) (s : sys) : sys :=
  settle (length (pending s)) o (invoke handleSendMessage s).

(** [selectDocument(doc)]: the file input changes. *)
Definition selectDocument (files : list File) (s : sys) : sys :=
  run (handleFileChange files) s.

(** *** Sample data *)

Definition brief : File :=
  {| name := lit "brief.pdf"; content := [37; 80; 68; 70]%N;
     type := lit "application/pdf" |}.

(** A 2xx answer of the health endpoint (its body is ignored). *)
Definition healthy : response :=
  {| data := JObj {[lit "status" := JStr (lit "ok")]}; status := 200 |}.

(** The upload answer of section 8, property 4. *)
Definition sample_upload_body : jsval :=
  JObj (<[lit "summary" := JStr (lit "S")]>
       (<[lit "case_id" := JStr (lit "C123")]>
          {[lit "filename" := JStr (lit "f.pdf")]})).

(** The page once [brief] has been selected. *)
Definition selected : sys := selectDocument [brief] boot.

(** The page once [brief] has been uploaded and the service has
    answered with [sample_upload_body]. *)
Definition uploaded : sys :=
  upload (Resolved healthy)
    (Resolved {| data := sample_upload_body; status := 200 |}) selected.

(** The operator has typed a question although nothing was uploaded. *)
Definition early_question : sys :=
  step (TypeMessage (lit "What is the verdict?")) boot.

(** The operator has typed a question about the uploaded document. *)
Definition question : sys :=
  step (TypeMessage (lit "What is the verdict?")) uploaded.

(** [handleUpload] is called twice in a row, the second time while the
    first call still awaits its probe; then both probes pass. *)
Definition double_upload : sys :=
  steps [Settle 0 (Resolved healthy); Settle 0 (Resolved healthy)]
    (invoke handleUpload (invoke handleUpload selected)).

(** The state in which a failed attempt leaves the component. *)
Definition upload_failed (msg : jsval) (s0 : State) : State :=
  {| file := file s0; summary := summary s0; error := msg;
     userMessage := userMessage s0; chatLog := chatLog s0;
     documentId := documentId s0; filename := filename s0;
     isUploading := false; uploadStatus := failed |}.

(** The state in which an accepted answer with body [d] leaves it. *)
Definition upload_succeeded (f : File) (d : jsval) (s0 : State) : State :=
  {| file := file s0;
     summary := js_or (opt_prop d (lit "summary"))
                  (JStr (lit "No summary available."));
     error := JStr (lit "");
     userMessage := userMessage s0; chatLog := [];
     documentId := js_or (opt_prop d (lit "case_id")) (JStr (lit ""));
     filename := js_or (opt_prop d (lit "filename")) (JStr (name f));
     isUploading := false; uploadStatus := success |}.

(** What every attempt with a document selected does before its probe
    is answered. *)
Definition upload_start : list event :=
  [EvSet (setIsUploading true); EvSet (setError (JStr (lit "")));
   EvSet (setUploadStatus StatusNull); EvSend health_request].

(** The setter calls that touch the session data (document, summary,
    identity, confirmed filename, log, pending input). *)
Definition touches_session (e : event) : bool :=
  match e with
  | EvSet (setError _) | EvSet (setIsUploading _)
  | EvSet (setUploadStatus _) => false
  | EvSet _ => true
  | EvConsole | EvSend _ => false
  end.

(** The operator's turn that [handleSendMessage] builds from its render. *)
Definition operator_turn (snap : State) : Turn :=
  {| role := user; turn_content := JStr (userMessage snap) |}.

Definition assistant_turn (c : jsval) : Turn :=
  {| role := assistant; turn_content := c |}.

(** What an inquiry with non-blank text does before its call is
    answered. *)
Definition ask_start (snap : State) : list event :=
  [EvSet (setChatLog (chatLog snap ++ [operator_turn snap]));
   EvSet (setUserMessage (lit "")); EvSet (setError (JStr (lit "")));
   EvSend (chat_request (userMessage snap) (documentId snap))].

(** The state while the inquiry call is outstanding. *)
Definition asking (s0 : State) : State :=
  {| file := file s0; summary := summary s0; error := JStr (lit "");
     userMessage := lit ""; chatLog := chatLog s0 ++ [operator_turn s0];
     documentId := documentId s0; filename := filename s0;
     isUploading := isUploading s0; uploadStatus := uploadStatus s0 |}.

(** The state once the inquiry has ended with the assistant turn [c]
    and the error text [e]. *)
Definition asked (c e : jsval) (s0 : State) : State :=
  {| file := file s0; summary := summary s0; error := e;
     userMessage := lit "";
     chatLog := chatLog s0 ++ [operator_turn s0; assistant_turn c];
     documentId := documentId s0; filename := filename s0;
     isUploading := isUploading s0; uploadStatus := uploadStatus s0 |}.

(** The requests that are outstanding. *)
Definition awaited (s : sys) : list request := map fst (pending s).

(** *** Attempts in flight *)

(** The requests of an upload attempt: its probe and its upload call. *)
Definition upload_related (r : request) : bool :=
  match r with
  | Get url _ => bool_decide (url = health_url)
  | Post url _ _ => bool_decide (url = upload_url)
  end.

Fixpoint count_related (l : list request) : nat :=
  match l with
  | [] => 0
  | r :: l' => (if upload_related r then 1 else 0) + count_related l'
  end.

(** Number of upload attempts that are Probing or Uploading. *)
Definition in_flight (s : sys) : nat := count_related (awaited s).

(** What the suspended rest of a handler may still do to the scheduler
    and to [isUploading]: the rest of an attempt that awaits its upload
    call, ... *)
Definition post_task (k : outcome -> proc) : Prop :=
  forall (o : outcome) (s : sys),
    pending (run (k o) s) = pending s
    /\ isUploading (st (run (k o) s)) = false.

(** ... of an attempt that awaits its probe, ... *)
Definition probe_task (k : outcome -> proc) : Prop :=
  forall (o : outcome) (s : sys),
    (pending (run (k o) s) = pending s
     /\ isUploading (st (run (k o) s)) = false)
    \/ (exists r' k',
          pending (run (k o) s) = pending s ++ [(r', k')]
          /\ upload_related r' = true
          /\ post_task k'
          /\ isUploading (st (run (k o) s)) = isUploading (st s)).

(** ... and of an inquiry. *)
Definition chat_task (k : outcome -> proc) : Prop :=
  forall (o : outcome) (s : sys),
    pending (run (k o) s) = pending s
    /\ isUploading (st (run (k o) s)) = isUploading (st s).

Definition task_ok (t : request * (outcome -> proc)) : Prop :=
  if upload_related t.1 then probe_task t.2 else chat_task t.2.

(** The invariant of the page: at most one attempt is in flight, and
    none unless [isUploading] is set. *)
Definition page_inv (s : sys) : Prop :=
  Forall task_ok (pending s)
  /\ (in_flight s <= 1)%nat
  /\ (isUploading (st s) = false -> in_flight s = 0%nat).

(** ** The retry policy of the transport *)

Module Transport.

(** The options object given to [axiosRetry]. *)
Record options := {
  retries : nat;
  retryDelay : Z -> Z;
  retryCondition : jserror -> bool
}.

(** [axiosRetry(axios, { retries: 3, retryDelay: ..., retryCondition: ... })] *)
Definition config : options :=
  {| retries := 3;
     retryDelay := fun retryCount => retryCount * 1000;
     retryCondition := fun error =>
       strict_eq_str (code error) (lit "ECONNREFUSED")
       || negb (bool_decide (is_Some (err_response error))) |}.

(** What the transport does for one request. *)
Inductive action :=
| Attempt
| Sleep (ms : Z).

(** Modelled from the spec: the retry driver itself belongs to the
    axios-retry package, which is not among the sources.  Following
    section 4.4, a failed attempt is repeated while the retry
    condition accepts the failure and fewer than [retries] retries
    have been made, after a pause of [retryDelay] applied to the
    number of the retry (1 for the first).  [attempts] lists how the
    successive attempts end; the result is what the transport did and
    the outcome handed to the caller ([None] while still waiting). *)
Fixpoint send (o : options) (retryCount : nat) (attempts : list outcome)
    : list action * option outcome :=
  match attempts with
  | [] => ([Attempt], None)
  | Resolved res :: _ => ([Attempt], Some (Resolved res))
  | Rejected err :: rest =>
      if retryCondition o err && bool_decide (retryCount < retries o)%nat
      then
        let '(acts, out) := send o (S retryCount) rest in
        (Attempt :: Sleep (retryDelay o (Z.of_nat (S retryCount))) :: acts,
         out)
      else ([Attempt], Some (Rejected err))
  end.

(** A call through the configured [axios] instance. *)
Definition axios (attempts : list outcome) : list action * option outcome :=
  send config 0 attempts.

Fixpoint delays (acts : list action) : list Z :=
  match acts with
  | [] => []
  | Sleep ms :: acts' => ms :: delays acts'
  | Attempt :: acts' => delays acts'
  end.

Fixpoint attempt_count (acts : list action) : nat :=
  match acts with
  | [] => 0
  | Attempt :: acts' => S (attempt_count acts')
  | Sleep _ :: acts' => attempt_count acts'
  end.

End Transport.

(** ** What [App] returns, and what React displays *)

(** The upload status indicator: the spinner, the check mark, the cross
    or nothing ([null]). *)
Inductive status_mark := Spinner | CheckMark | CrossMark | NoMark.

(** [v && <element showing v>]: the element when [v] is truthy,
    otherwise the falsy [v] itself is what React is handed as a child. *)
Inductive guarded :=
| Shown (v : jsval)
| Handed (v : jsval).

Definition js_and_element (v : jsval) : guarded :=
  if truthy v then Shown v else Handed v.

(** The inquiry area: the placeholder sentence, or one paragraph per
    turn with its label and content. *)
Inductive chat_view :=
| Placeholder
| Messages (rows : list (jsstring * jsval)).

(** The parts of the returned JSX that depend on the state. *)
Record view := {
  upload_disabled : bool;
  upload_label : jsstring;
  status_indicator : status_mark;
  error_paragraph : guarded;
  summary_section : guarded;
  chat_area : chat_view;
  inquiry_value : jsstring
}.

(** [msg.role === 'user' ? 'Counsel' : 'Assistant'] *)
Definition role_label (r : Role) : jsstring :=
  match r with
  | user => lit "Counsel"
  | assistant => lit "Assistant"
  end.

(** The value of the [return (...)] expression of [App]: the elements
    the component hands to React.  Evaluating it never throws; whether
    React can display it is [displayed], below. *)
Definition render (s : State) : view :=
  {| upload_disabled := isUploading s;
     upload_label :=
       if isUploading s then lit "Uploading..." else lit "Upload & Analyze";
     status_indicator :=
       if isUploading s then Spinner
       else match uploadStatus s with
            | success => CheckMark
            | failed => CrossMark
            | StatusNull => NoMark
            end;
     error_paragraph := js_and_element (error s);
     summary_section := js_and_element (summary s);
     chat_area :=
       match chatLog s with
       | [] => Placeholder
       | _ :: _ =>
           Messages
             (map (fun msg => (role_label (role msg), turn_content msg))
                (chatLog s))
       end;
     inquiry_value := userMessage s |}.

(** What React takes as a child of an element (the React packages are
    not among the sources): a string or a number, shown as text; a
    boolean, [null] or [undefined], shown as nothing; an array of such
    children.  For a plain object it throws (objects are not valid as a
    React child) and, the component having no error boundary, the whole
    page is unmounted. *)
Fixpoint valid_child (v : jsval) : bool :=
  match v with
  | JObj _ => false
  | JArr l => forallb valid_child l
  | _ => true
  end.

(** The values of the state that [App] places as children: [error]
    (the guard's value, or the content of the paragraph), [summary]
    (likewise) and the content of every turn. *)
Definition valid_state (s : State) : bool :=
  valid_child (error s)
  && valid_child (summary s)
  && forallb (fun msg => valid_child (turn_content msg)) (chatLog s).

(** What the operator sees in state [s]: the elements [App] returns,
    or nothing at all ([None]) when React throws on one of them. *)
Definition displayed (s : State) : option view :=
  if valid_state s then Some (render s) else None.

(** The page is still mounted after [inputs]: React could display the
    state it was given initially and after each of the inputs. *)
Fixpoint mounted (inputs : list input) (s : sys) : Prop :=
  match inputs with
  | [] => displayed (st s) <> None
  | i :: rest => displayed (st s) <> None /\ mounted rest (step i s)
  end.

(** The content of the assistant turn an inquiry ends with: the
    [reply] read in the [try] block, or the message of the [catch]
    clause. *)
Definition exchange_end (o : outcome) : jsval :=
  match o with
  | Resolved res =>
      match get_prop (data res) (lit "reply") with
      | Some reply => reply
      | None => chat_error_message (TypeError (data res) (lit "reply"))
      end
  | Rejected err => chat_error_message err
  end.

(** ** State invariants of the page *)

(** [p], started in state [s], ends in a state satisfying [I], and so
    does every later part of it, resumed in any state satisfying [I];
    at each suspension the state satisfies [I]. *)
Fixpoint preserves (I : State -> Prop) (p : proc) (s : State) : Prop :=
  match p with
  | Ret => I s
  | Call u k => preserves I k (apply_setter u s)
  | Console k => preserves I k s
  | Await _ k => I s /\ forall (o : outcome) (s' : State),
                          I s' -> preserves I (k o) s'
  end.

(** A suspended call that keeps [I] whenever it resumes. *)
Definition resumable (I : State -> Prop) (t : request * (outcome -> proc))
    : Prop :=
  forall (o : outcome) (s' : State), I s' -> preserves I (t.2 o) s'.

(** The value is the empty string or truthy. *)
Definition blank_or_truthy (v : jsval) : Prop :=
  v = JStr [] \/ truthy v = true.

(** What the state variables never disagree on. *)
Definition display_inv (s : State) : Prop :=
  blank_or_truthy (summary s)
  /\ blank_or_truthy (error s)
  /\ blank_or_truthy (documentId s)
  /\ (isUploading s = true -> uploadStatus s = StatusNull)
  /\ (uploadStatus s = success -> truthy (summary s) = true)
  /\ (truthy (documentId s) = true -> truthy (summary s) = true).

(** Every assistant turn of the log stands directly after an
    operator turn. *)
Definition answered_in_place (l : list Turn) : Prop :=
  forall (i : nat) (t : Turn),
    l !! i = Some t -> role t = assistant ->
    exists (j : nat) (u : Turn),
      i = S j /\ l !! j = Some u /\ role u = user.

(** The in-progress flag is set only while an attempt is in flight. *)
Definition busy_inv (s : sys) : Prop :=
  isUploading (st s) = true -> in_flight s = 1%nat.

(** The text is made of white space only (or is empty). *)
Definition blank (s : jsstring) : Prop :=
  Forall (fun c => is_white_space c = true) s.

(** The time the transport spends pausing, in ms. *)
Definition total_delay (acts : list Transport.action) : Z :=
  fold_right Z.add 0 (Transport.delays acts).

(** * Properties *)

Arguments lit : simpl never.

(** ** Scheduler lemmas *)

Lemma settle_last (s0 : State) (ps : list (request * (outcome -> proc)))
    (r : request) (k : outcome -> proc) (t : list event) (o : outcome) :
  settle (length ps) o {| st := s0; pending := ps ++ [(r, k)]; trace := t |}
  = run (k o) {| st := s0; pending := ps; trace := t |}.
Proof.
  unfold settle; simpl.
  rewrite list_lookup_middle by reflexivity.
  rewrite delete_middle, app_nil_r. reflexivity.
Qed.

Lemma settle_none (s : sys) (o : outcome) :
  settle (length (pending s)) o s = s.
Proof.
  unfold settle.
  rewrite lookup_ge_None_2 by lia. reflexivity.
Qed.

Lemma settle_none_at (s0 : State) (ps : list (request * (outcome -> proc)))
    (t : list event) (o : outcome) :
  settle (length ps) o {| st := s0; pending := ps; trace := t |}
  = {| st := s0; pending := ps; trace := t |}.
Proof. apply (settle_none {| st := s0; pending := ps; trace := t |}). Qed.

Lemma requests_app (t1 t2 : list event) :
  requests (t1 ++ t2) = requests t1 ++ requests t2.
Proof.
  induction t1 as [|e t1 IH]; simpl; [reflexivity|].
  destruct e; simpl; rewrite IH; reflexivity.
Qed.

Lemma upload_calls_app (t1 t2 : list event) :
  upload_calls (t1 ++ t2) = (upload_calls t1 + upload_calls t2)%nat.
Proof.
  unfold upload_calls. rewrite requests_app, filter_app, length_app.
  reflexivity.
Qed.

Lemma chat_calls_app (t1 t2 : list event) :
  chat_calls (t1 ++ t2) = (chat_calls t1 + chat_calls t2)%nat.
Proof.
  unfold chat_calls. rewrite requests_app, filter_app, length_app.
  reflexivity.
Qed.

(** A validated upload body is an object or an array, so its
    properties can be read. *)
Lemma validated_readable (d : jsval) (k : jsstring) :
  invalid_body d = false -> get_prop d k = Some (opt_prop d k).
Proof. destruct d; simpl; try discriminate; reflexivity. Qed.

(** ** Upload attempts, path by path *)

Lemma upload_no_file (s : sys) (probe post : outcome) :
  (forall f, file (st s) <> FileObj f) ->
  upload probe post s =
  {| st := apply_setter (setUploadStatus failed)
             (apply_setter
                (setError (JStr (lit "Please select a file to upload.")))
                (st s));
     pending := pending s;
     trace := trace s ++
       [EvSet (setError (JStr (lit "Please select a file to upload.")));
        EvSet (setUploadStatus failed)] |}.
Proof.
  intros Hno. unfold upload, invoke, handleUpload.
  destruct (file (st s)) as [| |f] eqn:E; [| |destruct (Hno f); reflexivity];
    simpl; rewrite !settle_none_at, <- !app_assoc; reflexivity.
Qed.

Section UploadPaths.

Variables (s : sys) (f : File).
Hypothesis Hfile : file (st s) = FileObj f.

Lemma upload_probe_rejected (err : jserror) (post : outcome) :
  upload (Rejected err) post s =
  {| st := upload_failed (JStr server_down_message) (st s);
     pending := pending s;
     trace := trace s ++ upload_start ++
       [EvConsole;
        EvSet (setError (JStr server_down_message));
        EvSet (setIsUploading false); EvSet (setUploadStatus failed)] |}.
Proof.
  unfold upload, invoke, handleUpload, upload_start. rewrite Hfile. simpl.
  rewrite settle_last. simpl. rewrite settle_none_at.
  rewrite <- !app_assoc. reflexivity.
Qed.

Lemma upload_post_rejected (r : response) (err : jserror) :
  upload (Resolved r) (Rejected err) s =
  {| st := upload_failed (upload_error_message err) (st s);
     pending := pending s;
     trace := trace s ++ upload_start ++
       [EvSend (upload_request f); EvConsole;
        EvSet (setError (upload_error_message err));
        EvSet (setUploadStatus failed); EvSet (setIsUploading false)] |}.
Proof.
  unfold upload, invoke, handleUpload, upload_start. rewrite Hfile. simpl.
  rewrite settle_last. simpl. rewrite settle_last. simpl.
  rewrite <- !app_assoc. reflexivity.
Qed.

Lemma upload_body_rejected (r res : response) :
  invalid_body (data res) = true ->
  upload (Resolved r) (Resolved res) s =
  {| st := upload_failed (JStr upload_failure_message) (st s);
     pending := pending s;
     trace := trace s ++ upload_start ++
       [EvSend (upload_request f); EvConsole; EvConsole;
        EvSet (setError (JStr upload_failure_message));
        EvSet (setUploadStatus failed); EvSet (setIsUploading false)] |}.
Proof.
  intros Hbad.
  unfold upload, invoke, handleUpload, upload_start. rewrite Hfile. simpl.
  rewrite settle_last. simpl. rewrite settle_last. simpl.
  rewrite Hbad. simpl.
  rewrite <- !app_assoc. reflexivity.
Qed.

Lemma upload_body_accepted (r res : response) :
  invalid_body (data res) = false ->
  upload (Resolved r) (Resolved res) s =
  {| st := upload_succeeded f (data res) (st s);
     pending := pending s;
     trace := trace s ++ upload_start ++
       [EvSend (upload_request f); EvConsole;
        EvSet (setSummary (summary (upload_succeeded f (data res) (st s))));
        EvSet (setDocumentId
                 (documentId (upload_succeeded f (data res) (st s))));
        EvSet (setFilename (filename (upload_succeeded f (data res) (st s))));
        EvSet (setChatLog []); EvSet (setError (JStr (lit "")));
        EvSet (setUploadStatus success); EvSet (setIsUploading false)] |}.
Proof.
  intros Hok.
  unfold upload, invoke, handleUpload, upload_start. rewrite Hfile. simpl.
  rewrite settle_last. simpl. rewrite settle_last. simpl.
  rewrite Hok. unfold read.
  repeat (rewrite (validated_readable _ _ Hok); simpl).
  rewrite <- !app_assoc. reflexivity.
Qed.

End UploadPaths.

(** The error thrown for a rejected body carries no response and no
    cross-origin text, so the operator sees the generic message. *)
Lemma upload_failure_message_plain :
  upload_error_message (Error (lit "Invalid response format from server"))
  = JStr upload_failure_message.
Proof. reflexivity. Qed.

(** ** The liveness probe gates the upload *)

(** C7: when the liveness probe fails (the health request is rejected,
    so [checkServerHealth] answers [false]), an attempt with a document
    selected ends failed with the message, given here word for word,
    that the backend server is not running and has to be started, and
    the only request it has sent is the probe: the upload endpoint is
    not called. *)
Theorem probe_failure_blocks_upload (s : sys) (f : File) (err : jserror)
    (post : outcome) :
  file (st s) = FileObj f ->
  let s' := upload (Rejected err) post s in
  uploadStatus (st s') = failed
  /\ error (st s')
     = JStr (lit "Backend server is not running. Please start the server on http://localhost:5001 and try again.")
  /\ isUploading (st s') = false
  /\ requests (trace s') = requests (trace s) ++ [health_request]
  /\ upload_calls (trace s') = upload_calls (trace s)
  /\ pending s' = pending s.
Proof.
  intros Hfile s'. subst s'.
  rewrite (upload_probe_rejected s f Hfile).
  cbn [st pending trace upload_failed uploadStatus error isUploading].
  rewrite upload_calls_app, requests_app.
  repeat split; try reflexivity.
  change (upload_calls (upload_start ++ _)) with 0%nat. lia.
Qed.

Lemma probe_failure_blocks_upload_witness :
  file (st selected) = FileObj brief
  /\ uploadStatus
       (st (upload (Rejected (Error (lit "connect ECONNREFUSED")))
              (Resolved healthy) selected)) = failed
  /\ upload_calls
       (trace (upload (Rejected (Error (lit "connect ECONNREFUSED")))
                 (Resolved healthy) selected)) = 0%nat.
Proof.
  split; [reflexivity|].
  pose proof (probe_failure_blocks_upload selected brief
                (Error (lit "connect ECONNREFUSED")) (Resolved healthy)
                eq_refl) as H.
  cbv zeta in H. destruct H as (H1 & _ & _ & _ & H5 & _).
  split; [exact H1 | exact H5].
Defined.

(** ** Accepted upload answers *)

(** C6: an attempt with a document selected, a passing probe and the
    answer [{summary:"S", case_id:"C123", filename:"f.pdf"}] ends
    succeeded, with document identity ["C123"] and an empty
    conversation log (and summary ["S"], filename ["f.pdf"]). *)
Theorem upload_success_sample (s : sys) (f : File) (r : response) (http : Z) :
  file (st s) = FileObj f ->
  let s' := upload (Resolved r)
              (Resolved {| data := sample_upload_body; status := http |}) s in
  uploadStatus (st s') = success
  /\ documentId (st s') = JStr (lit "C123")
  /\ chatLog (st s') = []
  /\ summary (st s') = JStr (lit "S")
  /\ filename (st s') = JStr (lit "f.pdf")
  /\ error (st s') = JStr (lit "")
  /\ isUploading (st s') = false.
Proof.
  intros Hfile s'. subst s'.
  rewrite (upload_body_accepted s f Hfile) by reflexivity.
  cbn [st upload_succeeded data uploadStatus documentId chatLog summary
       filename error isUploading].
  repeat split; vm_compute; reflexivity.
Qed.

Lemma upload_success_sample_witness :
  file (st selected) = FileObj brief
  /\ documentId (st uploaded) = JStr (lit "C123")
  /\ chatLog (st uploaded) = [].
Proof.
  split; [reflexivity|].
  pose proof (upload_success_sample selected brief healthy 200 eq_refl) as H.
  cbv zeta in H. destruct H as (_ & H2 & H3 & _).
  split; [exact H2 | exact H3].
Defined.

(** C2 (as stated) fails: with a document selected and a passing probe,
    the answer [{}] is accepted.  The attempt ends succeeded, not
    failed, and the identity becomes the empty string. *)
Lemma empty_body_is_accepted :
  let s' := upload (Resolved healthy)
              (Resolved {| data := JObj ∅; status := 200 |}) selected in
  uploadStatus (st s') = success
  /\ uploadStatus (st s') <> failed
  /\ error (st s') = JStr (lit "")
  /\ documentId (st s') = JStr (lit "").
Proof. vm_compute. repeat split; try reflexivity. discriminate. Qed.

(** C2 (amended): the answer is validated only for being a truthy value
    of type object.  The body [{}] passes: the attempt ends succeeded
    with the default summary, the empty string as identity, the selected
    file's own name as filename and an empty log.  A body that is falsy
    or not an object ends the attempt failed with the generic upload
    failure message. *)
Theorem upload_body_validation (s : sys) (f : File) (r : response) (http : Z) :
  file (st s) = FileObj f ->
  (let s' := upload (Resolved r)
               (Resolved {| data := JObj ∅; status := http |}) s in
   uploadStatus (st s') = success
   /\ summary (st s') = JStr (lit "No summary available.")
   /\ documentId (st s') = JStr (lit "")
   /\ filename (st s') = JStr (name f)
   /\ chatLog (st s') = []
   /\ error (st s') = JStr (lit ""))
  /\ (forall d : jsval,
        invalid_body d = true ->
        let s' := upload (Resolved r)
                    (Resolved {| data := d; status := http |}) s in
        uploadStatus (st s') = failed
        /\ error (st s')
           = JStr (lit "An error occurred during the upload process.")
        /\ st s'
           = upload_failed
               (JStr (lit "An error occurred during the upload process."))
               (st s)).
Proof.
  intros Hfile. split.
  - cbv zeta.
    rewrite (upload_body_accepted s f Hfile) by reflexivity.
    cbn [st upload_succeeded data uploadStatus documentId chatLog summary
         filename error].
    repeat split; reflexivity.
  - intros d Hbad. cbv zeta.
    rewrite (upload_body_rejected s f Hfile) by exact Hbad.
    repeat split; reflexivity.
Qed.

Lemma upload_body_validation_witness :
  file (st selected) = FileObj brief
  /\ uploadStatus
       (st (upload (Resolved healthy)
              (Resolved {| data := JObj ∅; status := 200 |}) selected))
     = success
  /\ uploadStatus
       (st (upload (Resolved healthy)
              (Resolved {| data := JStr (lit "<html>"); status := 200 |})
              selected))
     = failed.
Proof.
  split; [reflexivity|].
  destruct (upload_body_validation selected brief healthy 200 eq_refl)
    as [(H1 & _) H2].
  split; [exact H1|].
  destruct (H2 (JStr (lit "<html>")) eq_refl) as (H3 & _). exact H3.
Defined.

(** ** Failed attempts leave the session alone *)

Ltac frame_done :=
  cbn; repeat split; try reflexivity; try assumption;
  eexists; split; reflexivity.

(** C9: whenever an attempt ends failed, whatever the reason (no
    document, probe down, rejected call, rejected body), the
    conversation log, the document identity, the summary and the
    confirmed filename are those of before the attempt, and so are the
    selected document and the pending input; the only setters the
    attempt has called are [setError], [setUploadStatus] and
    [setIsUploading]. *)
Theorem failed_upload_preserves_session (s : sys) (probe post : outcome) :
  uploadStatus (st (upload probe post s)) = failed ->
  let s' := upload probe post s in
  chatLog (st s') = chatLog (st s)
  /\ documentId (st s') = documentId (st s)
  /\ summary (st s') = summary (st s)
  /\ filename (st s') = filename (st s)
  /\ file (st s') = file (st s)
  /\ userMessage (st s') = userMessage (st s)
  /\ exists evs : list event,
       trace s' = trace s ++ evs /\ existsb touches_session evs = false.
Proof.
  intros Hfailed s'. subst s'. revert Hfailed.
  destruct (file (st s)) as [| |f] eqn:Hfile.
  1,2: rewrite (upload_no_file s probe post)
         by (intros f; rewrite Hfile; discriminate);
       intros _; frame_done.
  destruct probe as [r|err].
  - destruct post as [res|err].
    + destruct (invalid_body (data res)) eqn:Hbody.
      * rewrite (upload_body_rejected s f Hfile r res Hbody).
        intros _; frame_done.
      * rewrite (upload_body_accepted s f Hfile r res Hbody).
        cbn. discriminate.
    + rewrite (upload_post_rejected s f Hfile r err).
      intros _; frame_done.
  - rewrite (upload_probe_rejected s f Hfile err post).
    intros _; frame_done.
Qed.

Lemma failed_upload_preserves_session_witness :
  uploadStatus
    (st (upload (Resolved healthy)
           (Rejected {| message := lit "Request failed with status code 500";
                        code := JStr (lit "ERR_BAD_RESPONSE");
                        err_response :=
                          Some {| data := JObj {[lit "error" :=
                                                   JStr (lit "Unsupported file")]};
                                  status := 500 |} |})
           uploaded)) = failed
  /\ documentId
       (st (upload (Resolved healthy)
              (Rejected {| message := lit "Request failed with status code 500";
                           code := JStr (lit "ERR_BAD_RESPONSE");
                           err_response :=
                             Some {| data := JObj {[lit "error" :=
                                                      JStr (lit "Unsupported file")]};
                                     status := 500 |} |})
              uploaded)) = JStr (lit "C123").
Proof.
  split; [vm_compute; reflexivity|].
  destruct (failed_upload_preserves_session uploaded (Resolved healthy)
              (Rejected {| message := lit "Request failed with status code 500";
                           code := JStr (lit "ERR_BAD_RESPONSE");
                           err_response :=
                             Some {| data := JObj {[lit "error" :=
                                                      JStr (lit "Unsupported file")]};
                                     status := 500 |} |}))
    as (_ & H & _).
  - vm_compute; reflexivity.
  - rewrite H. vm_compute; reflexivity.
Defined.

(** ** Inquiries, path by path *)

Arguments chat_request : simpl never.

(** Section 8, property 6: blank text leaves the log alone and sends
    nothing. *)
Lemma ask_blank (s : sys) (o : outcome) :
  trim (userMessage (st s)) = [] ->
  ask o s =
  {| st := apply_setter
             (setError (JStr (lit "Please enter a message to proceed.")))
             (st s);
     pending := pending s;
     trace := trace s ++
       [EvSet (setError (JStr (lit "Please enter a message to proceed.")))] |}.
Proof.
  intros Hblank. unfold ask, invoke, handleSendMessage. rewrite Hblank.
  simpl. rewrite settle_none_at. reflexivity.
Qed.

Section AskPaths.

Variable s : sys.
Hypothesis Htext : trim (userMessage (st s)) <> [].

Lemma ask_started :
  st (invoke handleSendMessage s) = asking (st s)
  /\ trace (invoke handleSendMessage s) = trace s ++ ask_start (st s)
  /\ awaited (invoke handleSendMessage s)
     = awaited s ++ [chat_request (userMessage (st s)) (documentId (st s))].
Proof.
  unfold invoke, handleSendMessage, awaited.
  destruct (trim (userMessage (st s))) as [|c t]; [contradiction|].
  simpl. rewrite map_app, <- !app_assoc. repeat split; reflexivity.
Qed.

Lemma ask_replied (res : response) (reply : jsval) :
  get_prop (data res) (lit "reply") = Some reply ->
  ask (Resolved res) s =
  {| st := asked reply (JStr (lit "")) (st s);
     pending := pending s;
     trace := trace s ++ ask_start (st s) ++
       [EvSet (setChatLog
                 (chatLog (st s) ++ [operator_turn (st s); assistant_turn reply]))] |}.
Proof.
  intros Hreply. unfold ask, invoke, handleSendMessage.
  destruct (trim (userMessage (st s))) as [|c t]; [contradiction|].
  simpl. rewrite settle_last. unfold read. rewrite Hreply. simpl.
  rewrite <- !app_assoc. reflexivity.
Qed.

Lemma ask_rejected (err : jserror) :
  ask (Rejected err) s =
  {| st := asked (chat_error_message err) (chat_error_message err) (st s);
     pending := pending s;
     trace := trace s ++ ask_start (st s) ++
       [EvConsole;
        EvSet (setChatLog
                 (chatLog (st s) ++
                  [operator_turn (st s);
                   assistant_turn (chat_error_message err)]));
        EvSet (setError (chat_error_message err))] |}.
Proof.
  unfold ask, invoke, handleSendMessage.
  destruct (trim (userMessage (st s))) as [|c t]; [contradiction|].
  simpl. rewrite settle_last. simpl.
  rewrite <- !app_assoc. reflexivity.
Qed.

Lemma ask_unreadable (res : response) :
  get_prop (data res) (lit "reply") = None ->
  ask (Resolved res) s =
  {| st := asked (JStr chat_failure_message) (JStr chat_failure_message) (st s);
     pending := pending s;
     trace := trace s ++ ask_start (st s) ++
       [EvConsole;
        EvSet (setChatLog
                 (chatLog (st s) ++
                  [operator_turn (st s);
                   assistant_turn (JStr chat_failure_message)]));
        EvSet (setError (JStr chat_failure_message))] |}.
Proof.
  intros Hreply. unfold ask, invoke, handleSendMessage.
  destruct (trim (userMessage (st s))) as [|c t]; [contradiction|].
  simpl. rewrite settle_last. unfold read. rewrite Hreply. simpl.
  rewrite <- !app_assoc. reflexivity.
Qed.

End AskPaths.

(** ** Inquiries and the document identity *)

(** C1 (as stated) fails: with no upload ever made the identity is the
    empty string, and an inquiry is sent all the same, carrying that
    empty [case_id]; no error is recorded. *)
Lemma ask_without_document_is_sent :
  documentId (st early_question) = JStr (lit "")
  /\ requests (trace (step ClickSend early_question))
     = [chat_request (lit "What is the verdict?") (JStr (lit ""))]
  /\ chat_calls (trace (step ClickSend early_question)) = 1%nat
  /\ error (st (step ClickSend early_question)) = JStr (lit "").
Proof. vm_compute. repeat split; reflexivity. Qed.

(** C1 (amended): [handleSendMessage] never looks at the document
    identity.  In every state, a call with non-blank text sends exactly
    one inquiry, carrying the text and the current [documentId] (the
    empty string while no upload has succeeded), and records no error;
    blank text is the only input it turns down before the network. *)
Theorem ask_ignores_document_identity (s : sys) :
  (trim (userMessage (st s)) <> [] ->
   let s' := invoke handleSendMessage s in
   requests (trace s')
   = requests (trace s)
     ++ [chat_request (userMessage (st s)) (documentId (st s))]
   /\ chat_calls (trace s') = S (chat_calls (trace s))
   /\ error (st s') = JStr (lit ""))
  /\ (trim (userMessage (st s)) = [] ->
      let s' := invoke handleSendMessage s in
      requests (trace s') = requests (trace s)
      /\ error (st s') = JStr (lit "Please enter a message to proceed.")
      /\ chatLog (st s') = chatLog (st s)).
Proof.
  split.
  - intros Htext s'. subst s'.
    destruct (ask_started s Htext) as (Hst & Htr & _).
    rewrite Hst, Htr, requests_app, chat_calls_app.
    repeat split; try reflexivity.
    change (chat_calls (ask_start (st s))) with 1%nat. lia.
  - intros Hblank s'. subst s'.
    unfold invoke, handleSendMessage. rewrite Hblank. simpl.
    rewrite requests_app, app_nil_r. repeat split; reflexivity.
Qed.

Lemma ask_ignores_document_identity_witness :
  trim (userMessage (st early_question)) <> []
  /\ requests (trace (invoke handleSendMessage early_question))
     = requests (trace early_question)
       ++ [chat_request (userMessage (st early_question))
             (documentId (st early_question))].
Proof.
  assert (Htext : trim (userMessage (st early_question)) <> [])
    by (vm_compute; discriminate).
  split; [exact Htext|].
  destruct (ask_ignores_document_identity early_question) as [H _].
  destruct (H Htext) as (H1 & _). exact H1.
Defined.

(** ** One exchange per inquiry *)




(** Section 8, property 7: a first question answered with
    [{reply:"Pending"}]. *)
Example ask_verdict_pending :
  chatLog
    (st (ask (Resolved {| data := JObj {[lit "reply" := JStr (lit "Pending")]};
                          status := 200 |})
           question))
  = [ {| role := user; turn_content := JStr (lit "What is the verdict?") |};
      {| role := assistant; turn_content := JStr (lit "Pending") |} ].
Proof. vm_compute. reflexivity. Qed.

(** ** Chat answers are not validated *)

(** C10 (as stated) fails for a 2xx answer whose body is [null]:
    reading [res.data.reply] throws, the [catch] clause runs, and the
    assistant turn holds the generic failure message, which is also
    recorded as the last error, where the claim has the (absent) reply
    appended. *)
Lemma null_chat_body_takes_catch_clause :
  let s' := ask (Resolved {| data := JNull; status := 200 |}) question in
  chatLog (st s')
  = [operator_turn (st question);
     assistant_turn
       (JStr (lit "An error occurred while processing your request."))]
  /\ chatLog (st s')
     <> [operator_turn (st question);
         assistant_turn (opt_prop JNull (lit "reply"))]
  /\ error (st s')
     = JStr (lit "An error occurred while processing your request.").
Proof. vm_compute. repeat split; try reflexivity. discriminate. Qed.

(** C10 (amended): a 2xx chat answer is not validated.  Whenever its
    body is neither [null] nor [undefined], whatever stands at [reply]
    ([undefined] when the body has no such property, or is not an
    object at all) becomes the content of the assistant turn as it is,
    and no error is recorded.  When the body is [null] or [undefined]
    the read of [reply] throws and the assistant turn holds the generic
    failure message, recorded as the last error too. *)
Theorem ask_reply_unvalidated (s : sys) (res : response) :
  trim (userMessage (st s)) <> [] ->
  (data res <> JNull -> data res <> JUndefined ->
   st (ask (Resolved res) s)
   = asked (opt_prop (data res) (lit "reply")) (JStr (lit "")) (st s))
  /\ (data res = JNull \/ data res = JUndefined ->
      st (ask (Resolved res) s)
      = asked
          (JStr (lit "An error occurred while processing your request."))
          (JStr (lit "An error occurred while processing your request."))
          (st s)).
Proof.
  intros Htext. split.
  - intros Hnull Hundef.
    rewrite (ask_replied s Htext res (opt_prop (data res) (lit "reply"))).
    + reflexivity.
    + destruct (data res); try reflexivity; congruence.
  - intros Hbody. rewrite (ask_unreadable s Htext res).
    + reflexivity.
    + destruct Hbody as [-> | ->]; reflexivity.
Qed.

Lemma ask_reply_unvalidated_witness :
  trim (userMessage (st question)) <> []
  /\ chatLog
       (st (ask (Resolved {| data := JObj ∅; status := 200 |}) question))
     = [operator_turn (st question); assistant_turn JUndefined].
Proof.
  assert (Htext : trim (userMessage (st question)) <> [])
    by (vm_compute; discriminate).
  split; [exact Htext|].
  destruct (ask_reply_unvalidated question
              {| data := JObj ∅; status := 200 |} Htext) as [H _].
  rewrite H by discriminate. vm_compute. reflexivity.
Defined.

(** ** Selecting a document *)

(** C3 (as stated) fails: selecting a document after a successful
    upload leaves the identity issued for the previous one in place
    (and the previous summary and log with it). *)
Lemma selecting_keeps_identity :
  documentId (st uploaded) = JStr (lit "C123")
  /\ documentId (st (selectDocument [brief] uploaded)) = JStr (lit "C123")
  /\ documentId (st (selectDocument [brief] uploaded)) <> JStr (lit "")
  /\ uploadStatus (st (selectDocument [brief] uploaded)) = StatusNull.
Proof. vm_compute. repeat split; try reflexivity. discriminate. Qed.

(** C3 (amended): in every state, selecting a document replaces the
    selected file, empties the error message and resets the upload
    status to [null], and does nothing else: the document identity, the
    summary, the confirmed filename, the log, the pending input and the
    in-progress flag keep their values, and nothing is sent. *)
Theorem selectDocument_resets_status_only (s : sys) (files : list File) :
  st (selectDocument files s)
  = {| file := match files with f :: _ => FileObj f | [] => FileUndefined end;
       summary := summary (st s);
       error := JStr (lit "");
       userMessage := userMessage (st s);
       chatLog := chatLog (st s);
       documentId := documentId (st s);
       filename := filename (st s);
       isUploading := isUploading (st s);
       uploadStatus := StatusNull |}
  /\ pending (selectDocument files s) = pending s
  /\ requests (trace (selectDocument files s)) = requests (trace s).
Proof.
  unfold selectDocument, handleFileChange. simpl.
  rewrite !requests_app. simpl. rewrite !app_nil_r.
  repeat split; reflexivity.
Qed.

(** ** The page keeps at most one attempt in flight *)

Lemma count_related_app (l1 l2 : list request) :
  count_related (l1 ++ l2) = (count_related l1 + count_related l2)%nat.
Proof. induction l1 as [|r l1 IH]; simpl; [reflexivity|]. rewrite IH. lia. Qed.

Lemma count_related_delete (l : list request) (i : nat) (r : request) :
  l !! i = Some r ->
  count_related l
  = ((if upload_related r then 1 else 0) + count_related (delete i l))%nat.
Proof.
  revert i. induction l as [|x l IH]; intros [|i] Hi; try discriminate.
  - injection Hi as ->. reflexivity.
  - cbn in Hi. change (delete (S i) (x :: l)) with (x :: delete i l).
    cbn [count_related]. rewrite (IH i Hi). lia.
Qed.

Lemma awaited_delete (s0 : State) (ps : list (request * (outcome -> proc)))
    (t : list event) (i : nat) :
  awaited {| st := s0; pending := delete i ps; trace := t |}
  = delete i (map fst ps).
Proof.
  unfold awaited; cbn [pending]. revert i.
  induction ps as [|p ps IH]; intros [|i]; try reflexivity.
  change (delete (S i) (p :: ps)) with (p :: delete i ps).
  change (delete (S i) (map fst (p :: ps)))
    with (fst p :: delete i (map fst ps)).
  cbn [map]. f_equal. apply IH.
Qed.

Lemma upload_related_health : upload_related health_request = true.
Proof. reflexivity. Qed.

Lemma upload_related_upload (f : File) : upload_related (upload_request f) = true.
Proof. reflexivity. Qed.

Lemma upload_related_chat (msg : jsstring) (case_id : jsval) :
  upload_related (chat_request msg case_id) = false.
Proof. reflexivity. Qed.

Lemma page_inv_boot : page_inv boot.
Proof. split; [constructor|]. split; [cbn; lia | reflexivity]. Qed.

(** A handler part that sends nothing and leaves [isUploading] alone
    keeps the invariant. *)
Lemma page_inv_quiet (s s' : sys) :
  pending s' = pending s ->
  isUploading (st s') = isUploading (st s) ->
  page_inv s -> page_inv s'.
Proof.
  intros Hp Hu (Hok & Hone & Hidle).
  unfold page_inv, in_flight, awaited in *. rewrite Hp, Hu.
  split; [exact Hok|]. split; [exact Hone | exact Hidle].
Qed.

Lemma invoke_handleUpload_inv (s : sys) :
  isUploading (st s) = false -> page_inv s -> page_inv (invoke handleUpload s).
Proof.
  intros Hidle Hinv. unfold invoke, handleUpload.
  destruct (file (st s)) as [| |f].
  1,2: apply (page_inv_quiet s); [reflexivity | reflexivity | exact Hinv].
  destruct Hinv as (Hok & Hone & Hnone). specialize (Hnone Hidle).
  unfold page_inv, in_flight, awaited in *.
  cbn [run checkServerHealth pending st apply_setter isUploading].
  rewrite map_app, count_related_app, Hnone.
  cbn [map fst count_related]. rewrite upload_related_health.
  split; [|split; [lia | discriminate]].
  apply Forall_app. split; [exact Hok|]. constructor; [|constructor].
  unfold task_ok. cbn [fst snd]. rewrite upload_related_health.
  intros o s'. destruct o as [r|err].
  - right. cbn. eexists _, _. split; [reflexivity|].
    split; [apply upload_related_upload|]. split; [|reflexivity].
    intros o s''. destruct o as [res|err]; [|split; reflexivity].
    cbn. destruct (invalid_body (data res)); [split; reflexivity|].
    unfold read.
    destruct (get_prop (data res) (lit "summary")); [|split; reflexivity].
    cbn. destruct (get_prop (data res) (lit "case_id")); [|split; reflexivity].
    cbn. destruct (get_prop (data res) (lit "filename")); split; reflexivity.
  - left. split; reflexivity.
Qed.

Lemma invoke_handleSendMessage_inv (s : sys) :
  page_inv s -> page_inv (invoke handleSendMessage s).
Proof.
  intros Hinv. unfold invoke, handleSendMessage.
  destruct (trim (userMessage (st s))) as [|c t].
  { apply (page_inv_quiet s); [reflexivity | reflexivity | exact Hinv]. }
  destruct Hinv as (Hok & Hone & Hnone).
  unfold page_inv, in_flight, awaited in *.
  cbn [run pending st apply_setter isUploading].
  rewrite map_app, count_related_app.
  cbn [map fst count_related]. rewrite upload_related_chat, !Nat.add_0_r.
  split; [|split; [exact Hone | exact Hnone]].
  apply Forall_app. split; [exact Hok|]. constructor; [|constructor].
  unfold task_ok. cbn [fst snd]. rewrite upload_related_chat.
  intros o s'. destruct o as [res|err];
    [|split; reflexivity].
  unfold read. destruct (get_prop (data res) (lit "reply")); split; reflexivity.
Qed.

Lemma settle_inv (i : nat) (o : outcome) (s : sys) :
  page_inv s -> page_inv (settle i o s).
Proof.
  intros Hinv. unfold settle.
  destruct (pending s !! i) as [[r k]|] eqn:Hi; [|exact Hinv].
  destruct Hinv as (Hok & Hone & Hnone).
  pose proof (proj1 (Forall_lookup _ _) Hok i (r, k) Hi) as Htask.
  assert (Hr : map fst (pending s) !! i = Some r)
    by (rewrite list_lookup_fmap, Hi; reflexivity).
  pose proof (count_related_delete _ _ _ Hr) as Hcount.
  assert (Hrest : Forall task_ok (delete i (pending s)))
    by (apply Forall_delete; exact Hok).
  set (s0 := {| st := st s; pending := delete i (pending s);
                trace := trace s |}).
  assert (Haw : awaited s0 = delete i (map fst (pending s)))
    by apply awaited_delete.
  unfold task_ok in Htask. cbn [fst snd] in Htask.
  unfold in_flight, awaited in Hone, Hnone.
  destruct (upload_related r) eqn:Hrel.
  - destruct (Htask o s0) as [(Hp & Hu) | (r' & k' & Hp & Hrel' & Hk' & Hu)].
    + unfold page_inv, in_flight, awaited. rewrite Hp.
      fold (awaited s0). rewrite Haw.
      split; [exact Hrest|]. split; lia.
    + unfold page_inv, in_flight, awaited. rewrite Hp, map_app,
        count_related_app. fold (awaited s0). rewrite Haw. cbn.
      rewrite Hrel'. split; [|split; [lia|]].
      * apply Forall_app. split; [exact Hrest|]. constructor; [|constructor].
        unfold task_ok. cbn. rewrite Hrel'.
        intros o' s'. left. apply Hk'.
      * rewrite Hu. cbn. intros Hidle. specialize (Hnone Hidle). lia.
  - destruct (Htask o s0) as (Hp & Hu).
    unfold page_inv, in_flight, awaited. rewrite Hp, Hu.
    fold (awaited s0). rewrite Haw. cbn.
    split; [exact Hrest|]. split; [lia|].
    intros Hidle. specialize (Hnone Hidle). lia.
Qed.

Lemma step_inv (i : input) (s : sys) : page_inv s -> page_inv (step i s).
Proof.
  intros Hinv. destruct i as [files| |v| |key|n o]; cbn [step].
  - apply (page_inv_quiet s); [reflexivity | reflexivity | exact Hinv].
  - destruct (isUploading (st s)) eqn:Hu; [exact Hinv|].
    apply invoke_handleUpload_inv; assumption.
  - apply (page_inv_quiet s); [reflexivity | reflexivity | exact Hinv].
  - apply invoke_handleSendMessage_inv; exact Hinv.
  - destruct (bool_decide (key = lit "Enter")); [|exact Hinv].
    apply invoke_handleSendMessage_inv; exact Hinv.
  - apply settle_inv; exact Hinv.
Qed.

Lemma steps_inv (l : list input) (s : sys) :
  page_inv s -> page_inv (steps l s).
Proof.
  revert s. induction l as [|i l IH]; intros s Hinv; [exact Hinv|].
  apply IH, step_inv, Hinv.
Qed.

(** ** Serialising upload attempts *)

(** C4 (as stated) fails: [handleUpload] called again while the first
    call still awaits its probe runs in full, and two upload calls
    result. *)
Lemma second_handleUpload_call_uploads_again :
  isUploading (st (invoke handleUpload selected)) = true
  /\ awaited (invoke handleUpload selected) = [health_request]
  /\ upload_calls (trace double_upload) = 2%nat
  /\ awaited double_upload = [upload_request brief; upload_request brief].
Proof. vm_compute. repeat split; reflexivity. Qed.

(** C4 (amended): attempts are serialised by the rendered button, not
    by [handleUpload].  The button is disabled while [isUploading] is
    set, so a click then changes nothing.  Whatever is done through the
    page, at most one attempt is Probing or Uploading at any time, and
    while one is, a click on the button is a no-op; in particular a
    second click right after one that started an attempt changes
    nothing.  [handleUpload] itself has no guard: whenever it is called
    with a document selected, whatever [isUploading] says, and its probe
    passes, it sends one more upload call. *)
Theorem upload_serialised_by_button :
  (forall s : sys, isUploading (st s) = true -> step ClickUpload s = s)
  /\ (forall inputs : list input,
        let s := steps inputs boot in
        (in_flight s <= 1)%nat
        /\ (in_flight s <> 0%nat -> step ClickUpload s = s))
  /\ (forall (s : sys) (f : File),
        file (st s) = FileObj f ->
        isUploading (st s) = false ->
        step ClickUpload (step ClickUpload s) = step ClickUpload s)
  /\ (forall (s : sys) (f : File) (r : response),
        file (st s) = FileObj f ->
        let s' := settle (length (pending s)) (Resolved r)
                    (invoke handleUpload s) in
        trace s' = trace s ++ upload_start ++ [EvSend (upload_request f)]
        /\ upload_calls (trace s') = S (upload_calls (trace s))).
Proof.
  assert (Hdisabled : forall s : sys,
             isUploading (st s) = true -> step ClickUpload s = s).
  { intros s Hbusy. unfold step. rewrite Hbusy. reflexivity. }
  split; [exact Hdisabled|]. split; [|split].
  - intros inputs s.
    destruct (steps_inv inputs boot page_inv_boot) as (_ & Hone & Hnone).
    fold s in Hone, Hnone. split; [exact Hone|].
    intros Hflying. apply Hdisabled.
    destruct (isUploading (st s)); [reflexivity|].
    destruct Hflying. apply Hnone. reflexivity.
  - intros s f Hfile Hidle. apply Hdisabled.
    unfold step. rewrite Hidle. unfold invoke, handleUpload.
    rewrite Hfile. reflexivity.
  - intros s f r Hfile s'. subst s'.
    unfold invoke, handleUpload. rewrite Hfile. simpl.
    rewrite settle_last. simpl. rewrite <- !app_assoc.
    split; [reflexivity|].
    rewrite upload_calls_app.
    change (upload_calls _) with 1%nat at 2. lia.
Qed.

Lemma upload_serialised_by_button_witness :
  file (st selected) = FileObj brief
  /\ isUploading (st selected) = false
  /\ in_flight (steps [ChangeFile [brief]; ClickUpload] boot) <> 0%nat
  /\ steps [ChangeFile [brief]; ClickUpload; ClickUpload] boot
     = steps [ChangeFile [brief]; ClickUpload] boot
  /\ step ClickUpload (step ClickUpload selected) = step ClickUpload selected
  /\ upload_calls
       (trace (settle (length (pending selected)) (Resolved healthy)
                 (invoke handleUpload selected))) = 1%nat.
Proof.
  destruct upload_serialised_by_button as (_ & Hpage & Htwice & Hcore).
  split; [reflexivity|]. split; [reflexivity|].
  assert (Hflying : in_flight (steps [ChangeFile [brief]; ClickUpload] boot)
                    <> 0%nat) by (vm_compute; discriminate).
  split; [exact Hflying|]. split; [|split].
  - destruct (Hpage [ChangeFile [brief]; ClickUpload]) as (_ & Hnoop).
    exact (Hnoop Hflying).
  - exact (Htwice selected brief eq_refl eq_refl).
  - destruct (Hcore selected brief healthy eq_refl) as (_ & Hcount).
    exact Hcount.
Defined.

(** ** The retry policy *)

Lemma retryCondition_spec (err : jserror) :
  Transport.retryCondition Transport.config err = true
  <-> code err = JStr (lit "ECONNREFUSED") \/ err_response err = None.
Proof.
  unfold Transport.config, Transport.retryCondition, strict_eq_str.
  rewrite orb_true_iff, negb_true_iff, bool_decide_eq_false.
  split.
  - intros [H | H].
    + left. destruct (code err); try discriminate.
      apply bool_decide_eq_true in H. congruence.
    + right. destruct (err_response err); [|reflexivity].
      destruct H. eexists; reflexivity.
  - intros [H | H].
    + left. rewrite H. apply bool_decide_eq_true. reflexivity.
    + right. rewrite H. intros [x Hx]. discriminate.
Qed.

(** The driver, started at retry number [n]. *)
Lemma send_spec (attempts : list outcome) (n : nat) :
  (n <= 3)%nat ->
  let acts := (Transport.send Transport.config n attempts).1 in
  let out := (Transport.send Transport.config n attempts).2 in
  let m := length (Transport.delays acts) in
  (n + m <= 3)%nat
  /\ Transport.attempt_count acts = S m
  /\ Transport.delays acts
     = map (fun k => Z.of_nat k * 1000) (seq (S n) m)
  /\ (forall i, (i < m)%nat ->
        exists err, attempts !! i = Some (Rejected err)
                    /\ Transport.retryCondition Transport.config err = true)
  /\ (forall err, out = Some (Rejected err) ->
        attempts !! m = Some (Rejected err)
        /\ (Transport.retryCondition Transport.config err = false
            \/ (n + m)%nat = 3%nat))
  /\ (forall res, out = Some (Resolved res) ->
        attempts !! m = Some (Resolved res))
  /\ (out = None -> length attempts = m).
Proof.
  revert n. induction attempts as [|o rest IH]; intros n Hn.
  - cbn. repeat split; try lia; try discriminate; try reflexivity.
  - destruct o as [res|err].
    + cbn. repeat split; try lia; try discriminate; try reflexivity.
      intros res' Heq. congruence.
    + cbn [Transport.send].
      destruct (Transport.retryCondition Transport.config err) eqn:Hcond.
      * destruct (bool_decide (n < Transport.retries Transport.config)%nat)
          eqn:Hlt.
        -- apply bool_decide_eq_true in Hlt. cbn in Hlt.
           specialize (IH (S n) ltac:(lia)).
           destruct (Transport.send Transport.config (S n) rest)
             as [acts out] eqn:Hsend.
           cbn [andb fst snd Transport.delays Transport.attempt_count length]
             in *.
           destruct IH as (Hb & Hc & Hd & Hr & Hf & Hs & Hw).
           repeat split.
           ++ lia.
           ++ rewrite Hc. reflexivity.
           ++ cbn [seq map]. exact (f_equal (cons _) Hd).
           ++ intros [|i] Hi; [exists err; split; [reflexivity|exact Hcond]|].
              apply Hr. lia.
           ++ apply (Hf _ H).
           ++ destruct (Hf _ H) as [_ [Hno | Hmax]]; [left; exact Hno|].
              right. lia.
           ++ intros res Hres. apply (Hs _ Hres).
           ++ intros Hnone. cbn. rewrite (Hw Hnone). reflexivity.
        -- apply bool_decide_eq_false in Hlt. cbn in Hlt.
           cbn. repeat split; try lia; try discriminate; try reflexivity;
             congruence.
      * cbn. repeat split; try lia; try discriminate; try reflexivity;
          try congruence.
        left.
        match goal with H : Some _ = Some _ |- _ => injection H as <- end.
        exact Hcond.
Qed.

(** C8: a request through the configured transport is repeated only
    after failures that are connection-refused or response-less, at
    most 3 times, the [k]-th retry after a pause of [k * 1000] ms (so
    the pauses grow strictly); the failure reaches the caller, to be
    classified there, only when it is not of that kind or when the 3
    retries are used up, and 4 answers always suffice for a result. *)
Theorem retry_policy (attempts : list outcome) :
  let acts := (Transport.axios attempts).1 in
  let out := (Transport.axios attempts).2 in
  let m := length (Transport.delays acts) in
  (m <= 3)%nat
  /\ Transport.attempt_count acts = S m
  /\ Transport.delays acts = map (fun k => Z.of_nat k * 1000) (seq 1 m)
  /\ (forall i j a b, (i < j)%nat ->
        Transport.delays acts !! i = Some a ->
        Transport.delays acts !! j = Some b -> a < b)
  /\ (forall i, (i < m)%nat ->
        exists err, attempts !! i = Some (Rejected err)
                    /\ (code err = JStr (lit "ECONNREFUSED")
                        \/ err_response err = None))
  /\ (forall err, out = Some (Rejected err) ->
        attempts !! m = Some (Rejected err)
        /\ (~ (code err = JStr (lit "ECONNREFUSED")
               \/ err_response err = None)
            \/ m = 3%nat))
  /\ (forall res, out = Some (Resolved res) ->
        attempts !! m = Some (Resolved res))
  /\ ((4 <= length attempts)%nat -> out <> None).
Proof.
  pose proof (send_spec attempts 0 ltac:(lia)) as H.
  unfold Transport.axios. cbv zeta in *.
  destruct H as (Hb & Hc & Hd & Hr & Hf & Hs & Hw).
  split; [lia|]. split; [exact Hc|]. split; [exact Hd|].
  split; [|split; [|split; [|split]]].
  - intros i j a b Hij Ha Hb'. rewrite Hd in Ha, Hb'.
    rewrite list_lookup_fmap in Ha, Hb'.
    destruct (seq 1 _ !! i) as [x|] eqn:Hx; [|discriminate].
    destruct (seq 1 _ !! j) as [y|] eqn:Hy; [|discriminate].
    apply lookup_seq in Hx, Hy. cbn in Ha, Hb'.
    injection Ha as <-. injection Hb' as <-. lia.
  - intros i Hi. destruct (Hr i Hi) as (err & Hat & Hcond).
    exists err. split; [exact Hat|]. apply retryCondition_spec. exact Hcond.
  - intros err Hout. destruct (Hf err Hout) as (Hat & Hwhy).
    split; [exact Hat|].
    destruct Hwhy as [Hno | Hmax]; [left|right; exact Hmax].
    intros Hyes. apply retryCondition_spec in Hyes. congruence.
  - exact Hs.
  - intros Hlen Hnone. specialize (Hw Hnone). lia.
Qed.

Lemma retry_policy_witness :
  (4 <= length (replicate 5 (Rejected
                   {| message := lit "connect ECONNREFUSED 127.0.0.1:5001";
                      code := JStr (lit "ECONNREFUSED");
                      err_response := None |})))%nat
  /\ Transport.delays
       (Transport.axios
          (replicate 5 (Rejected
             {| message := lit "connect ECONNREFUSED 127.0.0.1:5001";
                code := JStr (lit "ECONNREFUSED");
                err_response := None |}))).1
     = [1000; 2000; 3000]
  /\ (Transport.axios
        (replicate 5 (Rejected
           {| message := lit "connect ECONNREFUSED 127.0.0.1:5001";
              code := JStr (lit "ECONNREFUSED");
              err_response := None |}))).2 <> None.
Proof.
  split; [vm_compute; lia|].
  destruct (retry_policy
              (replicate 5 (Rejected
                 {| message := lit "connect ECONNREFUSED 127.0.0.1:5001";
                    code := JStr (lit "ECONNREFUSED");
                    err_response := None |})))
    as (_ & _ & Hd & _ & _ & _ & _ & Hout).
  split; [rewrite Hd; vm_compute; reflexivity|].
  apply Hout. vm_compute. lia.
Defined.

(** * Further properties of the component *)

(** ** The string operations *)

Lemma trim_start_nil_blank (s : jsstring) : trim_start s = [] <-> blank s.
Proof.
  unfold blank. induction s as [|c s IH]; cbn.
  - split; [constructor | reflexivity].
  - destruct (is_white_space c) eqn:Hc.
    + rewrite IH. split; [intros H; constructor; assumption|].
      intros H. inversion H; assumption.
    + split; [discriminate|]. intros H. inversion H. congruence.
Qed.

Lemma trim_start_head (s : jsstring) (c : N) (t : jsstring) :
  trim_start s = c :: t -> is_white_space c = false.
Proof.
  induction s as [|x s IH]; cbn; [discriminate|].
  destruct (is_white_space x) eqn:Hx; [exact IH|].
  intros H. injection H as -> _. exact Hx.
Qed.

Lemma blank_rev (s : jsstring) : blank (rev s) <-> blank s.
Proof.
  unfold blank. rewrite !Forall_forall. split; intros H x Hx; apply H.
  - rewrite list_elem_of_In, <- in_rev, <- list_elem_of_In. exact Hx.
  - rewrite list_elem_of_In, <- in_rev, <- list_elem_of_In in Hx. exact Hx.
Qed.

(** [s.trim()] is empty exactly when [s] holds white space only. *)
Lemma trim_nil_blank (s : jsstring) : trim s = [] <-> blank s.
Proof.
  unfold trim. split.
  - intros H.
    assert (H' : trim_start (rev (trim_start s)) = []).
    { destruct (trim_start (rev (trim_start s))); [reflexivity|].
      cbn in H. destruct (rev l); discriminate. }
    apply (proj1 (trim_start_nil_blank _)) in H'.
    apply (proj1 (blank_rev _)) in H'.
    destruct (trim_start s) as [|c t] eqn:Hs.
    + apply trim_start_nil_blank. exact Hs.
    + apply trim_start_head in Hs. unfold blank in H'.
      apply Forall_cons in H'. destruct H' as [Hc _]. congruence.
  - intros H. apply trim_start_nil_blank in H. rewrite H. reflexivity.
Qed.

Lemma starts_with_spec (s p : jsstring) :
  starts_with s p = true <-> exists post, s = p ++ post.
Proof.
  revert s. induction p as [|a p IH]; intros s.
  - destruct s; cbn; split; eauto.
  - destruct s as [|b s]; cbn.
    + split; [discriminate|]. intros [post H]. discriminate.
    + rewrite andb_true_iff, N.eqb_eq, IH. split.
      * intros [-> [post ->]]. exists post. reflexivity.
      * intros [post H]. injection H as -> ->. split; eauto.
Qed.

(** [s.includes(sub)] holds exactly when [sub] occurs in [s]. *)
Lemma includes_spec (s sub : jsstring) :
  includes s sub = true <-> exists pre post, s = pre ++ sub ++ post.
Proof.
  induction s as [|c s IH]; cbn [includes]; rewrite orb_true_iff.
  - rewrite starts_with_spec. split.
    + intros [[post H] | H]; [|discriminate]. exists [], post. exact H.
    + intros (pre & post & H). left.
      destruct pre; [exists post; exact H | discriminate].
  - rewrite starts_with_spec, IH. split.
    + intros [[post H] | (pre & post & H)].
      * exists [], post. exact H.
      * exists (c :: pre), post. rewrite H. reflexivity.
    + intros (pre & post & H). destruct pre as [|x pre].
      * left. exists post. exact H.
      * right. injection H as -> ->. exists pre, post. reflexivity.
Qed.

(** ** Preconditions of the two operations *)

(** X1: an attempt made while no document is selected (nothing chosen
    yet, or the last file dialog left the selection empty) sends
    nothing at all: it records the request to select a file, marks the
    upload failed, and leaves the in-progress flag as it was. *)
Theorem upload_without_document (s : sys) (probe post : outcome) :
  (forall f, file (st s) <> FileObj f) ->
  let s' := upload probe post s in
  requests (trace s') = requests (trace s)
  /\ pending s' = pending s
  /\ error (st s') = JStr (lit "Please select a file to upload.")
  /\ uploadStatus (st s') = failed
  /\ isUploading (st s') = isUploading (st s)
  /\ status_indicator (render (st s'))
     = (if isUploading (st s) then Spinner else CrossMark).
Proof.
  intros Hno s'. subst s'. rewrite (upload_no_file s probe post Hno).
  cbn [st pending trace]. rewrite requests_app, app_nil_r.
  repeat split; reflexivity.
Qed.

Lemma upload_without_document_witness :
  (forall f, file (st (selectDocument [] uploaded)) <> FileObj f)
  /\ requests (trace (upload (Resolved healthy) (Resolved healthy)
                        (selectDocument [] uploaded)))
     = requests (trace (selectDocument [] uploaded)).
Proof.
  assert (Hno : forall f, file (st (selectDocument [] uploaded)) <> FileObj f)
    by (intros f; vm_compute; discriminate).
  split; [exact Hno|].
  destruct (upload_without_document (selectDocument [] uploaded)
              (Resolved healthy) (Resolved healthy) Hno) as (H & _).
  exact H.
Defined.

(** X2: an inquiry is turned down exactly when the pending input holds
    white space only (or nothing).  It then sends nothing and leaves
    the log and the pending input untouched, recording only the request
    to enter a message. *)
Theorem blank_inquiry_rejected (s : sys) (o : outcome) :
  (blank (userMessage (st s)) ->
   let s' := ask o s in
   requests (trace s') = requests (trace s)
   /\ pending s' = pending s
   /\ chatLog (st s') = chatLog (st s)
   /\ userMessage (st s') = userMessage (st s)
   /\ error (st s') = JStr (lit "Please enter a message to proceed."))
  /\ (requests (trace (invoke handleSendMessage s)) = requests (trace s)
      <-> blank (userMessage (st s))).
Proof.
  split.
  - intros Hblank s'. subst s'. apply trim_nil_blank in Hblank.
    rewrite (ask_blank s o Hblank). cbn [st pending trace].
    rewrite requests_app, app_nil_r. repeat split; reflexivity.
  - rewrite <- trim_nil_blank. split.
    + intros Hsame.
      destruct (trim (userMessage (st s))) as [|c t] eqn:Htrim;
        [reflexivity|].
      assert (Htext : trim (userMessage (st s)) <> [])
        by (rewrite Htrim; discriminate).
      destruct (ask_started s Htext) as (_ & Htr & _).
      rewrite Htr, requests_app in Hsame. cbn in Hsame.
      apply (f_equal length) in Hsame.
      rewrite length_app in Hsame. cbn in Hsame. lia.
    + intros Htrim. unfold invoke, handleSendMessage. rewrite Htrim.
      cbn. rewrite requests_app, app_nil_r. reflexivity.
Qed.

Lemma blank_inquiry_rejected_witness :
  blank (userMessage (st (step (TypeMessage [32; 9; 160]%N) uploaded)))
  /\ chatLog (st (ask (Resolved healthy)
                    (step (TypeMessage [32; 9; 160]%N) uploaded)))
     = chatLog (st (step (TypeMessage [32; 9; 160]%N) uploaded)).
Proof.
  assert (Hb : blank (userMessage
                        (st (step (TypeMessage [32; 9; 160]%N) uploaded))))
    by (repeat constructor).
  split; [exact Hb|].
  destruct (blank_inquiry_rejected
              (step (TypeMessage [32; 9; 160]%N) uploaded)
              (Resolved healthy)) as [H _].
  destruct (H Hb) as (_ & _ & H3 & _). exact H3.
Defined.

(** ** What the answer check lets through *)

Lemma invalid_body_false (d : jsval) :
  invalid_body d = false <-> (exists o, d = JObj o) \/ (exists l, d = JArr l).
Proof.
  split.
  - destruct d; unfold invalid_body; cbn [typeof_object negb];
      rewrite ?orb_true_r; try discriminate; eauto.
  - intros [[o ->] | [l ->]]; reflexivity.
Qed.

(** X3: the check on the upload answer lets through exactly the
    objects and the arrays.  So an array, which has none of the three
    properties read afterwards, ends the attempt succeeded with the
    default summary, the empty identity and the selected file's name. *)
Theorem upload_accepts_objects_and_arrays (s : sys) (f : File)
    (r : response) (http : Z) :
  file (st s) = FileObj f ->
  (forall d : jsval,
     uploadStatus
       (st (upload (Resolved r) (Resolved {| data := d; status := http |}) s))
     = success
     <-> (exists o, d = JObj o) \/ (exists l, d = JArr l))
  /\ (forall l : list jsval,
        let s' := upload (Resolved r)
                    (Resolved {| data := JArr l; status := http |}) s in
        summary (st s') = JStr (lit "No summary available.")
        /\ documentId (st s') = JStr (lit "")
        /\ filename (st s') = JStr (name f)
        /\ chatLog (st s') = []).
Proof.
  intros Hfile. split.
  - intros d. rewrite <- invalid_body_false.
    destruct (invalid_body d) eqn:Hd.
    + rewrite (upload_body_rejected s f Hfile) by exact Hd.
      cbn. split; discriminate.
    + rewrite (upload_body_accepted s f Hfile) by exact Hd.
      cbn. split; reflexivity.
  - intros l s'. subst s'.
    rewrite (upload_body_accepted s f Hfile) by reflexivity.
    repeat split; reflexivity.
Qed.

Lemma upload_accepts_objects_and_arrays_witness :
  file (st selected) = FileObj brief
  /\ uploadStatus
       (st (upload (Resolved healthy)
              (Resolved {| data := JArr [JBool true]; status := 200 |})
              selected)) = success
  /\ documentId
       (st (upload (Resolved healthy)
              (Resolved {| data := JArr [JBool true]; status := 200 |})
              selected)) = JStr (lit "").
Proof.
  split; [reflexivity|].
  destruct (upload_accepts_objects_and_arrays selected brief healthy 200
              eq_refl) as [H1 H2].
  split.
  - apply (H1 (JArr [JBool true])). right. eexists. reflexivity.
  - destruct (H2 [JBool true]) as (_ & H & _). exact H.
Defined.

(** ** Failure messages *)

Lemma js_or_truthy (a b : jsval) : truthy b = true -> truthy (js_or a b) = true.
Proof. intros Hb. unfold js_or. destruct (truthy a) eqn:Ha; assumption. Qed.

Lemma upload_error_message_truthy (err : jserror) :
  truthy (upload_error_message err) = true.
Proof.
  unfold upload_error_message. apply js_or_truthy.
  destruct (includes _ _); reflexivity.
Qed.

Lemma chat_error_message_truthy (err : jserror) :
  truthy (chat_error_message err) = true.
Proof. unfold chat_error_message. apply js_or_truthy. reflexivity. Qed.

Lemma js_and_element_truthy (v : jsval) :
  truthy v = true -> js_and_element v = Shown v.
Proof. intros H. unfold js_and_element. rewrite H. reflexivity. Qed.

Lemma displayed_some (s : State) (v : view) :
  displayed s = Some v -> v = render s.
Proof. unfold displayed. destruct (valid_state s); congruence. Qed.

Lemma displayed_valid (s : State) :
  displayed s <> None <-> valid_state s = true.
Proof.
  unfold displayed. destruct (valid_state s); split; congruence.
Qed.

(** A change of the error message alone keeps the page displayed
    exactly when the new message is a valid child. *)
Lemma valid_state_error (s0 s1 : State) :
  summary s1 = summary s0 ->
  chatLog s1 = chatLog s0 ->
  valid_state s0 = true ->
  valid_state s1 = valid_child (error s1).
Proof.
  unfold valid_state. intros -> -> H.
  apply andb_true_iff in H. destruct H as [H Hlog].
  apply andb_true_iff in H. destruct H as [_ Hsum].
  rewrite Hsum, Hlog, !andb_true_r. reflexivity.
Qed.

Lemma js_or_invalid (a : jsval) (l : jsstring) :
  valid_child (js_or a (JStr l)) = false -> js_or a (JStr l) = a.
Proof. unfold js_or. destruct (truthy a); [reflexivity | discriminate]. Qed.

Lemma failed_state_display (msg : jsval) (s0 : State) :
  valid_state s0 = true ->
  truthy msg = true ->
  (valid_child msg = true ->
   exists v, displayed (upload_failed msg s0) = Some v
             /\ status_indicator v = CrossMark
             /\ upload_disabled v = false
             /\ upload_label v = lit "Upload & Analyze"
             /\ exists m, error_paragraph v = Shown m /\ truthy m = true)
  /\ (valid_child msg = false -> displayed (upload_failed msg s0) = None).
Proof.
  intros Hvalid Hmsg.
  pose proof (valid_state_error s0 (upload_failed msg s0) eq_refl eq_refl
                Hvalid) as Hv.
  cbn [error upload_failed] in Hv. unfold displayed. rewrite Hv. split.
  - intros ->. eexists. split; [reflexivity|]. cbn.
    repeat split. exists msg.
    split; [apply js_and_element_truthy|]; exact Hmsg.
  - intros ->. reflexivity.
Qed.

(** X4: an attempt started while the page is displayed and no other is
    in progress, and ending failed, is displayed as such (the cross,
    the enabled button, the error paragraph with a message that is
    never empty) exactly when its error message is a valid React
    child.  It is not only when the upload call was rejected with an
    [error] property that is a plain object, or an array holding one:
    the page is then unmounted. *)
Theorem failed_upload_is_displayed (s : sys) (probe post : outcome) :
  isUploading (st s) = false ->
  displayed (st s) <> None ->
  uploadStatus (st (upload probe post s)) = failed ->
  let s' := upload probe post s in
  (valid_child (error (st s')) = true ->
   exists v, displayed (st s') = Some v
             /\ status_indicator v = CrossMark
             /\ upload_disabled v = false
             /\ upload_label v = lit "Upload & Analyze"
             /\ exists m, error_paragraph v = Shown m /\ truthy m = true)
  /\ (valid_child (error (st s')) = false ->
      displayed (st s') = None
      /\ exists r err,
           probe = Resolved r /\ post = Rejected err
           /\ error (st s') = response_error err).
Proof.
  intros Hidle Hshown. apply displayed_valid in Hshown.
  destruct (file (st s)) as [| |f] eqn:Hfile.
  1,2: rewrite (upload_no_file s probe post)
         by (intros f; rewrite Hfile; discriminate);
       intros _; cbn [st];
       replace (apply_setter (setUploadStatus failed)
                  (apply_setter
                     (setError (JStr (lit "Please select a file to upload.")))
                     (st s)))
         with (upload_failed (JStr (lit "Please select a file to upload."))
                 (st s))
         by (unfold upload_failed; cbn; rewrite Hidle; reflexivity);
       destruct (failed_state_display
                   (JStr (lit "Please select a file to upload.")) (st s)
                   Hshown eq_refl) as (Hyes & _);
       (split; [exact Hyes | discriminate]).
  destruct probe as [r|err].
  - destruct post as [res|err].
    + destruct (invalid_body (data res)) eqn:Hbody.
      * rewrite (upload_body_rejected s f Hfile r res Hbody).
        intros _. cbn [st].
        destruct (failed_state_display (JStr upload_failure_message) (st s)
                    Hshown eq_refl) as (Hyes & _).
        split; [exact Hyes | discriminate].
      * rewrite (upload_body_accepted s f Hfile r res Hbody).
        cbn. discriminate.
    + rewrite (upload_post_rejected s f Hfile r err).
      intros _. cbn [st].
      destruct (failed_state_display (upload_error_message err) (st s)
                  Hshown (upload_error_message_truthy err)) as (Hyes & Hno).
      split; [exact Hyes|].
      cbn [error upload_failed]. intros Hbad.
      split; [exact (Hno Hbad)|].
      exists r, err. split; [reflexivity|]. split; [reflexivity|].
      revert Hbad. unfold upload_error_message.
      destruct (includes (message err) (lit "Access-Control"));
        apply js_or_invalid.
  - rewrite (upload_probe_rejected s f Hfile err post).
    intros _. cbn [st].
    destruct (failed_state_display (JStr server_down_message) (st s)
                Hshown eq_refl) as (Hyes & _).
    split; [exact Hyes | discriminate].
Qed.

Lemma failed_upload_is_displayed_witness :
  isUploading (st selected) = false
  /\ displayed (st selected) <> None
  /\ uploadStatus
       (st (upload (Resolved healthy)
              (Rejected (Error (lit "Network Error"))) selected)) = failed
  /\ exists v,
       displayed (st (upload (Resolved healthy)
                        (Rejected (Error (lit "Network Error"))) selected))
       = Some v
       /\ status_indicator v = CrossMark.
Proof.
  assert (Hshown : displayed (st selected) <> None)
    by (vm_compute; discriminate).
  split; [reflexivity|]. split; [exact Hshown|]. split; [reflexivity|].
  destruct (failed_upload_is_displayed selected (Resolved healthy)
              (Rejected (Error (lit "Network Error"))) eq_refl Hshown
              eq_refl) as (H & _).
  destruct (H eq_refl) as (v & Hv & Hmark & _).
  exists v. split; assumption.
Defined.

(** X5: how a rejected upload call is reported.  A truthy [error]
    property in the body of the service's answer is shown as it is,
    whatever else the failure says.  Without one, the cross-origin
    message is shown exactly when the failure text contains
    [Access-Control], and the generic upload message otherwise. *)
Theorem upload_failure_classification (s : sys) (f : File) (r : response)
    (err : jserror) :
  file (st s) = FileObj f ->
  let m := error (st (upload (Resolved r) (Rejected err) s)) in
  (truthy (response_error err) = true -> m = response_error err)
  /\ (truthy (response_error err) = false ->
      (m = JStr (lit "CORS error: The frontend port does not match the allowed origin in the backend. Check the browser console for details.")
       <-> exists pre post,
             message err = pre ++ lit "Access-Control" ++ post)
      /\ (m = JStr (lit "An error occurred during the upload process.")
          <-> ~ exists pre post,
                  message err = pre ++ lit "Access-Control" ++ post)).
Proof.
  intros Hfile m. subst m.
  rewrite (upload_post_rejected s f Hfile r err).
  cbn [st error upload_failed].
  unfold upload_error_message, js_or, cors_message, upload_failure_message.
  split.
  - intros Hyes. rewrite Hyes. reflexivity.
  - intros Hno. rewrite Hno, <- includes_spec.
    assert (Hne : JStr (lit "CORS error: The frontend port does not match the allowed origin in the backend. Check the browser console for details.")
                  <> JStr (lit "An error occurred during the upload process."))
      by (vm_compute; discriminate).
    destruct (includes (message err) (lit "Access-Control"));
      split; split; intros; try reflexivity; congruence.
Qed.

Lemma upload_failure_classification_witness :
  file (st selected) = FileObj brief
  /\ error
       (st (upload (Resolved healthy)
              (Rejected
                 {| message := lit "blocked: no Access-Control-Allow-Origin";
                    code := JStr (lit "ERR_NETWORK");
                    err_response := None |})
              selected)) = JStr cors_message.
Proof.
  split; [reflexivity|].
  destruct (upload_failure_classification selected brief healthy
              {| message := lit "blocked: no Access-Control-Allow-Origin";
                 code := JStr (lit "ERR_NETWORK");
                 err_response := None |} eq_refl) as (_ & H).
  destruct (H eq_refl) as ((_ & Hcors) & _).
  apply Hcors. exists (lit "blocked: no "), (lit "-Allow-Origin").
  vm_compute. reflexivity.
Defined.

Lemma valid_state_asked (c e : jsval) (s0 : State) :
  valid_state s0 = true ->
  e = JStr (lit "") \/ e = c ->
  valid_state (asked c e s0) = valid_child c.
Proof.
  unfold valid_state. intros H He.
  apply andb_true_iff in H. destruct H as [H Hlog].
  apply andb_true_iff in H. destruct H as [_ Hsum].
  cbn [asked error summary chatLog].
  rewrite Hsum, forallb_app, Hlog. cbn [forallb operator_turn assistant_turn
    turn_content valid_child andb].
  rewrite !andb_true_r.
  destruct He as [-> | ->]; [reflexivity|].
  destruct (valid_child c); reflexivity.
Qed.

(** X6: how a rejected inquiry is reported.  A truthy [error] property
    in the body of the service's answer becomes both the assistant turn
    and the last error; otherwise both hold the generic inquiry
    message, whatever the failure text says: the inquiry path has no
    cross-origin message.  If the page was displayed, it stays so, with
    the error paragraph showing that message, exactly when the message
    is a valid React child; with an [error] property that is a plain
    object the page is unmounted. *)
Theorem chat_failure_classification (s : sys) (err : jserror) :
  trim (userMessage (st s)) <> [] ->
  let s' := ask (Rejected err) s in
  (truthy (response_error err) = true ->
   st s' = asked (response_error err) (response_error err) (st s))
  /\ (truthy (response_error err) = false ->
      st s'
      = asked (JStr (lit "An error occurred while processing your request."))
          (JStr (lit "An error occurred while processing your request."))
          (st s))
  /\ (displayed (st s) <> None ->
      (valid_child (error (st s')) = true ->
       exists v, displayed (st s') = Some v
                 /\ error_paragraph v = Shown (error (st s')))
      /\ (valid_child (error (st s')) = false ->
          displayed (st s') = None
          /\ error (st s') = response_error err)).
Proof.
  intros Htext s'. subst s'. rewrite (ask_rejected s Htext err).
  cbn [st]. split; [|split].
  - intros Hyes. unfold chat_error_message, js_or. rewrite Hyes. reflexivity.
  - intros Hno. unfold chat_error_message, js_or. rewrite Hno. reflexivity.
  - intros Hshown. apply displayed_valid in Hshown.
    pose proof (valid_state_asked (chat_error_message err)
                  (chat_error_message err) (st s) Hshown
                  (or_intror eq_refl)) as Hv.
    cbn [asked error]. unfold displayed. rewrite Hv. split.
    + intros ->. eexists. split; [reflexivity|].
      cbn. apply js_and_element_truthy, chat_error_message_truthy.
    + intros Hbad. rewrite Hbad. split; [reflexivity|].
      apply js_or_invalid. exact Hbad.
Qed.

Lemma chat_failure_classification_witness :
  trim (userMessage (st question)) <> []
  /\ displayed (st question) <> None
  /\ error
       (st (ask (Rejected
                   {| message := lit "blocked: no Access-Control-Allow-Origin";
                      code := JStr (lit "ERR_NETWORK");
                      err_response := None |}) question))
     = JStr chat_failure_message
  /\ displayed
       (st (ask (Rejected
                   {| message := lit "blocked: no Access-Control-Allow-Origin";
                      code := JStr (lit "ERR_NETWORK");
                      err_response := None |}) question)) <> None.
Proof.
  assert (Htext : trim (userMessage (st question)) <> [])
    by (vm_compute; discriminate).
  assert (Hshown : displayed (st question) <> None)
    by (vm_compute; discriminate).
  split; [exact Htext|]. split; [exact Hshown|].
  destruct (chat_failure_classification question
              {| message := lit "blocked: no Access-Control-Allow-Origin";
                 code := JStr (lit "ERR_NETWORK");
                 err_response := None |} Htext) as (_ & H & Hpage).
  split; [rewrite (H eq_refl); reflexivity|].
  destruct (Hpage Hshown) as (Hyes & _).
  destruct (Hyes eq_refl) as (v & Hv & _). rewrite Hv. discriminate.
Defined.

(** ** Calls that overlap *)

Lemma settle_middle (s0 : State) (ps qs : list (request * (outcome -> proc)))
    (r : request) (k : outcome -> proc) (t : list event) (o : outcome) :
  settle (length ps) o
    {| st := s0; pending := ps ++ (r, k) :: qs; trace := t |}
  = run (k o) {| st := s0; pending := ps ++ qs; trace := t |}.
Proof.
  unfold settle; cbn [pending st trace].
  rewrite list_lookup_middle by reflexivity.
  rewrite delete_middle. reflexivity.
Qed.

(** What a call of [handleSendMessage] leaves suspended, and what that
    does when it resumes, in whatever state. *)
Lemma ask_resumes (s : sys) :
  trim (userMessage (st s)) <> [] ->
  exists k : outcome -> proc,
    invoke handleSendMessage s
    = {| st := asking (st s);
         pending := pending s
           ++ [(chat_request (userMessage (st s)) (documentId (st s)), k)];
         trace := trace s ++ ask_start (st s) |}
    /\ forall (o : outcome) (s2 : sys),
         pending (run (k o) s2) = pending s2
         /\ requests (trace (run (k o) s2)) = requests (trace s2)
         /\ chatLog (st (run (k o) s2))
            = chatLog (st s)
              ++ [operator_turn (st s); assistant_turn (exchange_end o)]
         /\ documentId (st (run (k o) s2)) = documentId (st s2)
         /\ summary (st (run (k o) s2)) = summary (st s2)
         /\ file (st (run (k o) s2)) = file (st s2)
         /\ userMessage (st (run (k o) s2)) = userMessage (st s2).
Proof.
  intros Htext. unfold invoke, handleSendMessage.
  destruct (trim (userMessage (st s))) as [|c t]; [contradiction|].
  simpl. eexists. split.
  - rewrite <- !app_assoc. reflexivity.
  - intros o s2. destruct o as [res|err].
    + unfold read, exchange_end.
      destruct (get_prop (data res) (lit "reply")) as [reply|]; simpl;
        rewrite !requests_app; simpl; rewrite ?app_nil_r, <- ?app_assoc;
        repeat split; reflexivity.
    + simpl. rewrite !requests_app. simpl. rewrite ?app_nil_r, <- ?app_assoc.
      repeat split; reflexivity.
Qed.

(** X7: inquiries are not serialised, and each resumed call writes back
    the log of its own render.  When a second inquiry is sent before the
    first is answered, and the first answer comes first, the first
    assistant turn is overwritten: the log ends as both operator turns
    followed by the second answer only.  When the second answer comes
    first, the whole second exchange is overwritten by the first. *)
Theorem overlapping_inquiries_lose_a_turn (s : sys) (t2 : jsstring)
    (o1 o2 : outcome) :
  trim (userMessage (st s)) <> [] ->
  trim t2 <> [] ->
  let n := length (pending s) in
  let t1 := userMessage (st s) in
  let both := steps [ClickSend; TypeMessage t2; ClickSend] s in
  chatLog (st (steps [Settle n o1; Settle n o2] both))
  = chatLog (st s)
    ++ [ {| role := user; turn_content := JStr t1 |};
         {| role := user; turn_content := JStr t2 |};
         assistant_turn (exchange_end o2) ]
  /\ chatLog (st (steps [Settle (S n) o2; Settle n o1] both))
     = chatLog (st s)
       ++ [ {| role := user; turn_content := JStr t1 |};
            assistant_turn (exchange_end o1) ].
Proof.
  intros Htext1 Htext2 n t1 both. subst n t1 both.
  unfold steps. cbn [fold_left step].
  destruct (ask_resumes s Htext1) as (k1 & Hs1 & Hk1).
  rewrite Hs1. cbn [run apply_setter st pending trace asking].
  match goal with
  | |- context [invoke handleSendMessage ?x] => set (s2 := x)
  end.
  assert (Htext2' : trim (userMessage (st s2)) <> []) by exact Htext2.
  destruct (ask_resumes s2 Htext2') as (k2 & Hs2 & Hk2).
  rewrite Hs2. subst s2. cbn [st pending trace] in *.
  split.
  - rewrite <- app_assoc. cbn [app]. rewrite settle_middle.
    match goal with
    | |- context [run (k1 o1) ?x] =>
        destruct (Hk1 o1 x) as (Hp & _ & _); set (s3 := run (k1 o1) x) in *
    end.
    destruct s3 as [st3 p3 tr3]. cbn [pending] in Hp. subst p3.
    rewrite settle_last.
    match goal with
    | |- context [run (k2 o2) ?x] => destruct (Hk2 o2 x) as (_ & _ & Hlog & _)
    end.
    rewrite Hlog. cbn. rewrite <- app_assoc. reflexivity.
  - replace (S (length (pending s)))
      with (length (pending s ++
                    [(chat_request (userMessage (st s)) (documentId (st s)),
                      k1)]))
      by (rewrite length_app; cbn; lia).
    rewrite settle_last.
    match goal with
    | |- context [run (k2 o2) ?x] =>
        destruct (Hk2 o2 x) as (Hp & _ & _); set (s3 := run (k2 o2) x) in *
    end.
    destruct s3 as [st3 p3 tr3]. cbn [pending] in Hp. subst p3.
    rewrite settle_last.
    match goal with
    | |- context [run (k1 o1) ?x] => destruct (Hk1 o1 x) as (_ & _ & Hlog & _)
    end.
    rewrite Hlog. reflexivity.
Qed.

Lemma overlapping_inquiries_lose_a_turn_witness :
  trim (userMessage (st question)) <> []
  /\ trim (lit "And the costs?") <> []
  /\ chatLog
       (st (steps [ClickSend; TypeMessage (lit "And the costs?"); ClickSend;
                   Settle 0 (Resolved {| data := JObj {[lit "reply" :=
                                                          JStr (lit "Pending")]};
                                         status := 200 |});
                   Settle 0 (Resolved {| data := JObj {[lit "reply" :=
                                                          JStr (lit "None")]};
                                         status := 200 |})]
              question))
     = [ {| role := user; turn_content := JStr (lit "What is the verdict?") |};
         {| role := user; turn_content := JStr (lit "And the costs?") |};
         {| role := assistant; turn_content := JStr (lit "None") |} ].
Proof.
  assert (H1 : trim (userMessage (st question)) <> [])
    by (vm_compute; discriminate).
  assert (H2 : trim (lit "And the costs?") <> [])
    by (vm_compute; discriminate).
  split; [exact H1|]. split; [exact H2|].
  destruct (overlapping_inquiries_lose_a_turn question (lit "And the costs?")
              (Resolved {| data := JObj {[lit "reply" := JStr (lit "Pending")]};
                           status := 200 |})
              (Resolved {| data := JObj {[lit "reply" := JStr (lit "None")]};
                           status := 200 |}) H1 H2) as (H & _).
  etransitivity; [exact H|]. vm_compute. reflexivity.
Defined.

(** X8: an accepted upload empties the log, but an inquiry that was
    outstanding at that moment brings the old log back when it is
    answered, with its own two turns appended, while the identity stays
    the one of the new upload. *)
Theorem answer_after_upload_restores_log (s : sys) (f : File)
    (r res : response) (o : outcome) :
  trim (userMessage (st s)) <> [] ->
  file (st s) = FileObj f ->
  invalid_body (data res) = false ->
  let asked_first := invoke handleSendMessage s in
  let renewed := upload (Resolved r) (Resolved res) asked_first in
  let answered := settle (length (pending s)) o renewed in
  chatLog (st renewed) = []
  /\ chatLog (st answered)
     = chatLog (st s)
       ++ [operator_turn (st s); assistant_turn (exchange_end o)]
  /\ documentId (st answered)
     = js_or (opt_prop (data res) (lit "case_id")) (JStr (lit ""))
  /\ pending answered = pending s.
Proof.
  intros Htext Hfile Hok asked_first renewed answered.
  subst answered renewed asked_first.
  destruct (ask_resumes s Htext) as (k & Hs1 & Hk).
  rewrite Hs1.
  match goal with
  | |- context [upload _ _ ?x] =>
      rewrite (upload_body_accepted x f Hfile r res Hok)
  end.
  cbn [st pending trace upload_succeeded chatLog].
  split; [reflexivity|].
  rewrite settle_last.
  match goal with
  | |- context [run (k o) ?x] =>
      destruct (Hk o x) as (Hp & _ & Hlog & Hid & _)
  end.
  rewrite Hlog, Hid, Hp. repeat split; reflexivity.
Qed.

Lemma answer_after_upload_restores_log_witness :
  trim (userMessage (st question)) <> []
  /\ file (st question) = FileObj brief
  /\ invalid_body (JObj ∅) = false
  /\ chatLog
       (st (settle 0 (Rejected (Error (lit "Network Error")))
              (upload (Resolved healthy)
                 (Resolved {| data := JObj ∅; status := 200 |})
                 (invoke handleSendMessage question))))
     = [ {| role := user; turn_content := JStr (lit "What is the verdict?") |};
         {| role := assistant; turn_content := JStr chat_failure_message |} ].
Proof.
  assert (H1 : trim (userMessage (st question)) <> [])
    by (vm_compute; discriminate).
  split; [exact H1|]. split; [reflexivity|]. split; [reflexivity|].
  destruct (answer_after_upload_restores_log question brief healthy
              {| data := JObj ∅; status := 200 |}
              (Rejected (Error (lit "Network Error"))) H1 eq_refl eq_refl)
    as (_ & H & _).
  etransitivity; [exact H|]. vm_compute. reflexivity.
Defined.

(** ** Which document is uploaded *)

Lemma handleFileChange_run (files : list File) (s : sys) :
  run (handleFileChange files) s
  = {| st := {| file := match files with
                        | f :: _ => FileObj f
                        | [] => FileUndefined
                        end;
                summary := summary (st s); error := JStr (lit "");
                userMessage := userMessage (st s); chatLog := chatLog (st s);
                documentId := documentId (st s); filename := filename (st s);
                isUploading := isUploading (st s);
                uploadStatus := StatusNull |};
       pending := pending s;
       trace := trace s ++
         [EvSet (setFile match files with
                         | f :: _ => FileObj f
                         | [] => FileUndefined
                         end);
          EvSet (setError (JStr (lit "")));
          EvSet (setUploadStatus StatusNull)] |}.
Proof.
  unfold handleFileChange. cbn. rewrite <- !app_assoc. reflexivity.
Qed.

(** What a call of [handleUpload] with a document selected leaves
    suspended: the part awaiting the probe and, once the probe has
    passed, the part awaiting the upload call, with what the latter does
    with an accepted answer, in whatever state each resumes. *)
Lemma upload_resumes (s : sys) (f : File) :
  file (st s) = FileObj f ->
  exists k1 k2 : outcome -> proc,
    invoke handleUpload s
    = {| st := apply_setter (setUploadStatus StatusNull)
                 (apply_setter (setError (JStr (lit "")))
                    (apply_setter (setIsUploading true) (st s)));
         pending := pending s ++ [(health_request, k1)];
         trace := trace s ++ upload_start |}
    /\ (forall (r : response) (s2 : sys),
          run (k1 (Resolved r)) s2
          = {| st := st s2;
               pending := pending s2 ++ [(upload_request f, k2)];
               trace := trace s2 ++ [EvSend (upload_request f)] |})
    /\ (forall (res : response) (s3 : sys),
          invalid_body (data res) = false ->
          st (run (k2 (Resolved res)) s3)
          = upload_succeeded f (data res) (st s3)
          /\ pending (run (k2 (Resolved res)) s3) = pending s3
          /\ requests (trace (run (k2 (Resolved res)) s3))
             = requests (trace s3)).
Proof.
  intros Hfile. unfold invoke, handleUpload. rewrite Hfile. simpl.
  eexists _, _. split; [|split].
  - unfold upload_start. rewrite <- !app_assoc. reflexivity.
  - intros r s2. reflexivity.
  - intros res s3 Hok. simpl. rewrite Hok. unfold read.
    repeat (rewrite (validated_readable _ _ Hok); simpl).
    rewrite !requests_app. simpl. rewrite !app_nil_r.
    repeat split; reflexivity.
Qed.

(** X9: the document uploaded is the first file of the most recent
    selection made before the click.  A selection made after the click,
    while the attempt is in flight, does not change what is sent: the
    earlier document is uploaded and, when the answer names no file,
    its name is the one confirmed, although the later one is now the
    selected document. *)
Theorem upload_sends_document_of_its_click (s : sys) (f g : File)
    (older rest rest' : list File) (r res : response) :
  isUploading (st s) = false ->
  invalid_body (data res) = false ->
  let n := length (pending s) in
  let s' := steps [ChangeFile older; ChangeFile (f :: rest); ClickUpload;
                   ChangeFile (g :: rest');
                   Settle n (Resolved r); Settle n (Resolved res)] s in
  requests (trace s')
  = requests (trace s) ++ [health_request; upload_request f]
  /\ file (st s') = FileObj g
  /\ uploadStatus (st s') = success
  /\ filename (st s')
     = js_or (opt_prop (data res) (lit "filename")) (JStr (name f)).
Proof.
  intros Hidle Hok n s'. subst n s'.
  unfold steps. cbn [fold_left step].
  rewrite (handleFileChange_run older), (handleFileChange_run (f :: rest)).
  cbn [st isUploading]. rewrite Hidle.
  match goal with
  | |- context [invoke handleUpload ?x] =>
      destruct (upload_resumes x f eq_refl) as (k1 & k2 & Hs1 & Hk1 & Hk2);
      rewrite Hs1; clear Hs1
  end.
  rewrite (handleFileChange_run (g :: rest')).
  cbn [st pending trace apply_setter summary error userMessage chatLog
       documentId filename isUploading uploadStatus file].
  rewrite settle_last, Hk1. cbn [st pending trace]. rewrite settle_last.
  match goal with
  | |- context [run (k2 (Resolved res)) ?x] =>
      destruct (Hk2 res x Hok) as (Hst & _ & Htr); rewrite Hst, Htr
  end.
  cbn [st trace]. rewrite !requests_app. cbn.
  rewrite !app_nil_r, <- !app_assoc. repeat split; reflexivity.
Qed.

Lemma upload_sends_document_of_its_click_witness :
  isUploading (st boot) = false
  /\ invalid_body (JObj ∅) = false
  /\ filename
       (st (steps [ChangeFile []; ChangeFile [brief]; ClickUpload;
                   ChangeFile [{| name := lit "other.docx"; content := [];
                                  type := lit "" |}];
                   Settle 0 (Resolved healthy);
                   Settle 0 (Resolved {| data := JObj ∅; status := 200 |})]
              boot))
     = JStr (lit "brief.pdf").
Proof.
  split; [reflexivity|]. split; [reflexivity|].
  destruct (upload_sends_document_of_its_click boot brief
              {| name := lit "other.docx"; content := []; type := lit "" |}
              [] [] [] healthy {| data := JObj ∅; status := 200 |}
              eq_refl eq_refl) as (_ & _ & _ & H).
  etransitivity; [exact H|]. vm_compute. reflexivity.
Defined.

(** ** Which identity an inquiry carries *)

(** X10: an inquiry carries the [case_id] of the last accepted upload
    answer (the empty string when that answer had none), and a failed
    attempt in between does not change it: the inquiry then still goes
    out under the identity held before the attempt. *)
Theorem inquiry_carries_last_identity (s : sys) (f : File) (text : jsstring)
    (probe post : outcome) :
  trim text <> [] ->
  file (st s) = FileObj f ->
  let s' := steps [TypeMessage text; ClickSend] (upload probe post s) in
  (uploadStatus (st (upload probe post s)) = failed ->
   requests (trace s')
   = requests (trace (upload probe post s))
     ++ [chat_request text (documentId (st s))])
  /\ (forall r res,
        probe = Resolved r -> post = Resolved res ->
        invalid_body (data res) = false ->
        requests (trace s')
        = requests (trace (upload probe post s))
          ++ [chat_request text
                (js_or (opt_prop (data res) (lit "case_id"))
                   (JStr (lit "")))]).
Proof.
  intros Htext Hfile s'. subst s'.
  unfold steps. cbn [fold_left step run].
  assert (Hsend : forall u : sys,
             requests (trace (invoke handleSendMessage
                {| st := apply_setter (setUserMessage text) (st u);
                   pending := pending u;
                   trace := trace u ++ [EvSet (setUserMessage text)] |}))
             = requests (trace u) ++ [chat_request text (documentId (st u))]).
  { intros u.
    match goal with
    | |- context [invoke handleSendMessage ?x] =>
        destruct (ask_started x Htext) as (_ & Htr & _); rewrite Htr
    end.
    cbn [st trace]. rewrite !requests_app. cbn. rewrite app_nil_r.
    reflexivity. }
  rewrite Hsend. split.
  - intros Hfailed. f_equal. f_equal. f_equal. revert Hfailed.
    destruct probe as [r|err].
    + destruct post as [res|err].
      * destruct (invalid_body (data res)) eqn:Hbody.
        -- rewrite (upload_body_rejected s f Hfile r res Hbody). reflexivity.
        -- rewrite (upload_body_accepted s f Hfile r res Hbody).
           cbn. discriminate.
      * rewrite (upload_post_rejected s f Hfile r err). reflexivity.
    + rewrite (upload_probe_rejected s f Hfile err post). reflexivity.
  - intros r res -> -> Hok.
    rewrite (upload_body_accepted s f Hfile r res Hok). reflexivity.
Qed.

Lemma inquiry_carries_last_identity_witness :
  trim (lit "What is the verdict?") <> []
  /\ file (st uploaded) = FileObj brief
  /\ requests
       (trace (steps [TypeMessage (lit "What is the verdict?"); ClickSend]
                 (upload (Rejected (Error (lit "Network Error")))
                    (Resolved healthy) uploaded)))
     = requests (trace (upload (Rejected (Error (lit "Network Error")))
                          (Resolved healthy) uploaded))
       ++ [chat_request (lit "What is the verdict?") (JStr (lit "C123"))].
Proof.
  assert (H1 : trim (lit "What is the verdict?") <> [])
    by (vm_compute; discriminate).
  split; [exact H1|]. split; [reflexivity|].
  destruct (inquiry_carries_last_identity uploaded brief
              (lit "What is the verdict?")
              (Rejected (Error (lit "Network Error"))) (Resolved healthy)
              H1 eq_refl) as (H & _).
  etransitivity; [exact (H eq_refl)|]. vm_compute. reflexivity.
Defined.

(** ** An invariant rule for the page *)

Lemma run_preserves (I : State -> Prop) (p : proc) (s : sys) :
  preserves I p (st s) ->
  Forall (resumable I) (pending s) ->
  I (st (run p s)) /\ Forall (resumable I) (pending (run p s)).
Proof.
  revert s. induction p as [|u k IH|k IH|r k IH]; intros s Hp Hts; cbn in *.
  - split; assumption.
  - apply IH; assumption.
  - apply IH; assumption.
  - destruct Hp as [Hs Hk]. split; [exact Hs|].
    apply Forall_app. split; [exact Hts|].
    constructor; [|constructor]. exact Hk.
Qed.

Lemma settle_preserves (I : State -> Prop) (i : nat) (o : outcome) (s : sys) :
  I (st s) ->
  Forall (resumable I) (pending s) ->
  I (st (settle i o s)) /\ Forall (resumable I) (pending (settle i o s)).
Proof.
  intros Hs Hts. unfold settle.
  destruct (pending s !! i) as [[r k]|] eqn:Hi; [|split; assumption].
  apply run_preserves; cbn [st pending].
  - apply (proj1 (Forall_lookup _ _) Hts i (r, k) Hi o (st s) Hs).
  - apply Forall_delete. exact Hts.
Qed.

(** A property of the state that holds initially and that each handler
    keeps, in all its parts, holds after any inputs.  [handleUpload]
    needs to keep it only when called with [isUploading] unset, as the
    button ensures. *)
Lemma page_rule (I : State -> Prop) :
  I init ->
  (forall files s, I s -> preserves I (handleFileChange files) s) ->
  (forall s, I s -> isUploading s = false -> preserves I (handleUpload s) s) ->
  (forall s, I s -> preserves I (handleSendMessage s) s) ->
  (forall v s, I s -> I (apply_setter (setUserMessage v) s)) ->
  forall inputs : list input, I (st (steps inputs boot)).
Proof.
  intros Hinit Hfile Hupload Hsend Htype inputs.
  assert (Hboot : I (st boot) /\ Forall (resumable I) (pending boot))
    by (split; [exact Hinit | constructor]).
  revert Hboot. generalize boot.
  induction inputs as [|i inputs IH]; intros s [Hs Hts]; [exact Hs|].
  apply IH. destruct i as [files| |v| |key|n o]; cbn [step].
  - apply run_preserves; [apply Hfile|]; assumption.
  - destruct (isUploading (st s)) eqn:Hu; [split; assumption|].
    apply run_preserves; [apply Hupload|]; assumption.
  - cbn. split; [apply Htype|]; assumption.
  - apply run_preserves; [apply Hsend|]; assumption.
  - destruct (bool_decide (key = lit "Enter")); [|split; assumption].
    apply run_preserves; [apply Hsend|]; assumption.
  - apply settle_preserves; assumption.
Qed.

(** ** What the state variables never disagree on *)

Lemma js_or_blank (a : jsval) : blank_or_truthy (js_or a (JStr (lit ""))).
Proof.
  unfold blank_or_truthy, js_or.
  destruct (truthy a) eqn:Ha; [right; exact Ha | left; reflexivity].
Qed.

Ltac display_goal :=
  match goal with
  | |- blank_or_truthy (JStr (lit "")) => left; reflexivity
  | |- blank_or_truthy (js_or _ (JStr (lit ""))) => apply js_or_blank
  | |- blank_or_truthy (upload_error_message _) =>
      right; apply upload_error_message_truthy
  | |- blank_or_truthy (chat_error_message _) =>
      right; apply chat_error_message_truthy
  | |- blank_or_truthy (js_or _ _) => right; apply js_or_truthy; reflexivity
  | |- blank_or_truthy (JStr _) => right; reflexivity
  | |- blank_or_truthy _ => assumption
  | |- truthy (js_or _ _) = true => apply js_or_truthy; reflexivity
  | |- _ -> _ =>
      intros; try discriminate; try reflexivity;
      try (apply js_or_truthy; reflexivity); auto
  end.

Ltac display_done :=
  unfold display_inv in *; cbn [apply_setter summary error documentId
    isUploading uploadStatus];
  repeat split; display_goal.

Lemma display_inv_reachable (inputs : list input) :
  display_inv (st (steps inputs boot)).
Proof.
  apply page_rule.
  - unfold display_inv, init; cbn.
    repeat split; try (left; reflexivity); intros; discriminate.
  - intros files s (Hsum & Herr & Hid & Hbusy & Hok & Hdoc).
    unfold handleFileChange. cbn [preserves]. display_done.
  - intros s (Hsum & Herr & Hid & Hbusy & Hok & Hdoc) Hidle.
    unfold handleUpload. destruct (file s) as [| |f].
    1,2: cbn [preserves]; display_done; congruence.
    cbn [preserves checkServerHealth]. split; [display_done|].
    intros o s1 (Hsum1 & Herr1 & Hid1 & Hbusy1 & Hok1 & Hdoc1).
    destruct o as [r|err]; cbn [preserves negb]; [|display_done].
    split; [display_done|].
    intros o s2 (Hsum2 & Herr2 & Hid2 & Hbusy2 & Hok2 & Hdoc2).
    destruct o as [res|err]; [|cbn [preserves upload_catch]; display_done].
    cbn [preserves].
    destruct (invalid_body (data res)) eqn:Hbody;
      [cbn [preserves upload_catch]; display_done|].
    unfold read.
    repeat (rewrite (validated_readable _ _ Hbody); cbn [preserves]).
    display_done.
  - intros s (Hsum & Herr & Hid & Hbusy & Hok & Hdoc).
    unfold handleSendMessage.
    destruct (trim (userMessage s)); cbn [preserves]; [display_done|].
    split; [display_done|].
    intros o s1 (Hsum1 & Herr1 & Hid1 & Hbusy1 & Hok1 & Hdoc1).
    destruct o as [res|err]; [|cbn [preserves chat_catch]; display_done].
    unfold read. destruct (get_prop (data res) (lit "reply"));
      cbn [preserves chat_catch]; display_done.
  - intros v s (Hsum & Herr & Hid & Hbusy & Hok & Hdoc). display_done.
Qed.

(** X11: after any inputs, the values guarding the error paragraph and
    the summary section are each either truthy, and then [App] returns
    the element, or the empty string: React is never handed any other
    falsy value (a [0], a [NaN]) in their place. *)
Theorem guards_hand_over_only_empty_string (inputs : list input) :
  let v := render (st (steps inputs boot)) in
  (error_paragraph v = Handed (JStr (lit ""))
   \/ exists m, error_paragraph v = Shown m /\ truthy m = true)
  /\ (summary_section v = Handed (JStr (lit ""))
      \/ exists m, summary_section v = Shown m /\ truthy m = true).
Proof.
  destruct (display_inv_reachable inputs) as (Hsum & Herr & _).
  cbn. split.
  - destruct Herr as [-> | Ht]; [left; reflexivity|].
    right. eexists. split; [apply js_and_element_truthy|]; exact Ht.
  - destruct Hsum as [-> | Ht]; [left; reflexivity|].
    right. eexists. split; [apply js_and_element_truthy|]; exact Ht.
Qed.

(** X12: after any inputs, while the in-progress flag is set the upload
    status is [null]; whenever [App] returns the check mark, it returns
    the button enabled and the summary section; and whenever the
    document identity is not empty, it returns the summary section. *)
Theorem status_display_consistent (inputs : list input) :
  let s := st (steps inputs boot) in
  (isUploading s = true -> uploadStatus s = StatusNull)
  /\ (status_indicator (render s) = CheckMark ->
      upload_disabled (render s) = false
      /\ exists m, summary_section (render s) = Shown m)
  /\ (truthy (documentId s) = true ->
      exists m, summary_section (render s) = Shown m).
Proof.
  destruct (display_inv_reachable inputs) as (_ & _ & _ & Hbusy & Hok & Hdoc).
  cbn. split; [exact Hbusy|]. split.
  - destruct (isUploading (st (steps inputs boot))); [discriminate|].
    destruct (uploadStatus (st (steps inputs boot))) eqn:Hst;
      try discriminate.
    intros _. split; [reflexivity|].
    eexists. apply js_and_element_truthy, Hok. reflexivity.
  - intros Hid. eexists. apply js_and_element_truthy, Hdoc, Hid.
Qed.

Lemma status_display_consistent_witness :
  status_indicator
    (render (st (steps [ChangeFile [brief]; ClickUpload;
                        Settle 0 (Resolved healthy);
                        Settle 0 (Resolved {| data := sample_upload_body;
                                              status := 200 |})] boot)))
  = CheckMark
  /\ exists m,
       summary_section
         (render (st (steps [ChangeFile [brief]; ClickUpload;
                             Settle 0 (Resolved healthy);
                             Settle 0 (Resolved {| data := sample_upload_body;
                                                   status := 200 |})] boot)))
       = Shown m.
Proof.
  assert (Hmark : status_indicator
            (render (st (steps [ChangeFile [brief]; ClickUpload;
                                Settle 0 (Resolved healthy);
                                Settle 0 (Resolved
                                            {| data := sample_upload_body;
                                               status := 200 |})] boot)))
          = CheckMark) by reflexivity.
  split; [exact Hmark|].
  destruct (status_display_consistent
              [ChangeFile [brief]; ClickUpload; Settle 0 (Resolved healthy);
               Settle 0 (Resolved {| data := sample_upload_body;
                                     status := 200 |})]) as (_ & H & _).
  destruct (H Hmark) as (_ & Hsum). exact Hsum.
Defined.

(** ** The in-progress flag and the attempts in flight *)

Lemma busy_inv_quiet (s s' : sys) :
  pending s' = pending s ->
  isUploading (st s') = isUploading (st s) ->
  busy_inv s -> busy_inv s'.
Proof.
  intros Hp Hu Hb. unfold busy_inv, in_flight, awaited in *.
  rewrite Hp, Hu. exact Hb.
Qed.

Lemma invoke_handleSendMessage_quiet (s : sys) :
  in_flight (invoke handleSendMessage s) = in_flight s
  /\ isUploading (st (invoke handleSendMessage s)) = isUploading (st s).
Proof.
  unfold invoke, handleSendMessage, in_flight, awaited.
  destruct (trim (userMessage (st s))) as [|c t]; [split; reflexivity|].
  cbn [run pending st apply_setter isUploading].
  rewrite map_app, count_related_app.
  cbn [map fst count_related]. rewrite upload_related_chat.
  split; [lia | reflexivity].
Qed.

Lemma settle_busy (i : nat) (o : outcome) (s : sys) :
  page_inv s -> busy_inv s -> busy_inv (settle i o s).
Proof.
  intros (Hok & Hone & Hnone) Hbusy. unfold settle.
  destruct (pending s !! i) as [[r k]|] eqn:Hi; [|exact Hbusy].
  pose proof (proj1 (Forall_lookup _ _) Hok i (r, k) Hi) as Htask.
  assert (Hr : map fst (pending s) !! i = Some r)
    by (rewrite list_lookup_fmap, Hi; reflexivity).
  pose proof (count_related_delete _ _ _ Hr) as Hcount.
  set (s0 := {| st := st s; pending := delete i (pending s);
                trace := trace s |}).
  assert (Haw : awaited s0 = delete i (map fst (pending s)))
    by apply awaited_delete.
  unfold task_ok in Htask. cbn [fst snd] in Htask.
  unfold in_flight, awaited in Hone, Hnone.
  unfold busy_inv, in_flight, awaited in Hbusy.
  unfold busy_inv, in_flight, awaited.
  destruct (upload_related r) eqn:Hrel.
  - destruct (Htask o s0) as [(Hp & Hu) | (r' & k' & Hp & Hrel' & Hk' & Hu)].
    + rewrite Hu. discriminate.
    + rewrite Hp, map_app, count_related_app. fold (awaited s0).
      rewrite Haw. cbn. rewrite Hrel'. intros _. lia.
  - destruct (Htask o s0) as (Hp & Hu).
    rewrite Hp, Hu. fold (awaited s0). rewrite Haw. cbn.
    intros Hb. specialize (Hbusy Hb). lia.
Qed.

Lemma step_busy (i : input) (s : sys) :
  page_inv s -> busy_inv s -> busy_inv (step i s).
Proof.
  intros Hinv Hbusy. destruct i as [files| |v| |key|n o]; cbn [step].
  - apply (busy_inv_quiet s); [reflexivity | reflexivity | exact Hbusy].
  - destruct (isUploading (st s)) eqn:Hu; [exact Hbusy|].
    destruct Hinv as (_ & _ & Hnone). specialize (Hnone Hu).
    unfold invoke, handleUpload. destruct (file (st s)) as [| |f].
    1,2: apply (busy_inv_quiet s); [reflexivity | reflexivity | exact Hbusy].
    unfold busy_inv, in_flight, awaited in *.
    cbn [run checkServerHealth pending st apply_setter isUploading].
    rewrite map_app, count_related_app, Hnone.
    cbn [map fst count_related]. rewrite upload_related_health.
    intros _. reflexivity.
  - apply (busy_inv_quiet s); [reflexivity | reflexivity | exact Hbusy].
  - destruct (invoke_handleSendMessage_quiet s) as (Hf & Hu).
    unfold busy_inv. rewrite Hf, Hu. exact Hbusy.
  - destruct (bool_decide (key = lit "Enter")); [|exact Hbusy].
    destruct (invoke_handleSendMessage_quiet s) as (Hf & Hu).
    unfold busy_inv. rewrite Hf, Hu. exact Hbusy.
  - apply settle_busy; assumption.
Qed.

Lemma page_busy_reachable (inputs : list input) :
  page_inv (steps inputs boot) /\ busy_inv (steps inputs boot).
Proof.
  assert (Hboot : page_inv boot /\ busy_inv boot)
    by (split; [apply page_inv_boot | intros H; discriminate]).
  revert Hboot. generalize boot.
  induction inputs as [|i inputs IH]; intros s [Hinv Hbusy];
    [split; assumption|].
  apply IH. split; [apply step_inv | apply step_busy]; assumption.
Qed.

Lemma mounted_last (inputs : list input) (s : sys) :
  mounted inputs s -> displayed (st (steps inputs s)) <> None.
Proof.
  revert s. induction inputs as [|i rest IH]; intros s Hm; [exact Hm|].
  destruct Hm as [_ Hm]. apply (IH _ Hm).
Qed.

(** X13: after any inputs that leave the page mounted, the page is
    displayed, and on it the spinner is shown exactly when one upload
    attempt is Probing or Uploading, and the button is enabled exactly
    when none is; there is never more than one attempt in flight. *)
Theorem spinner_iff_attempt_in_flight (inputs : list input) :
  mounted inputs boot ->
  let s := steps inputs boot in
  exists v,
    displayed (st s) = Some v
    /\ (status_indicator v = Spinner <-> in_flight s = 1%nat)
    /\ (upload_disabled v = false <-> in_flight s = 0%nat)
    /\ (in_flight s <= 1)%nat.
Proof.
  intros Hm s. subst s.
  apply mounted_last, displayed_valid in Hm.
  exists (render (st (steps inputs boot))).
  split; [unfold displayed; rewrite Hm; reflexivity|].
  destruct (page_busy_reachable inputs) as ((_ & Hone & Hnone) & Hbusy).
  unfold busy_inv in Hbusy. cbn.
  destruct (isUploading (st (steps inputs boot))) eqn:Hu.
  - specialize (Hbusy eq_refl). split; [|split; [|exact Hone]].
    + split; [intros _; exact Hbusy | reflexivity].
    + split; [discriminate | lia].
  - specialize (Hnone eq_refl). split; [|split; [|exact Hone]].
    + split; [|lia]. destruct (uploadStatus _); discriminate.
    + split; [intros _; exact Hnone | reflexivity].
Qed.

Lemma spinner_iff_attempt_in_flight_witness :
  mounted [ChangeFile [brief]; ClickUpload] boot
  /\ in_flight (steps [ChangeFile [brief]; ClickUpload] boot) = 1%nat
  /\ exists v,
       displayed (st (steps [ChangeFile [brief]; ClickUpload] boot)) = Some v
       /\ status_indicator v = Spinner.
Proof.
  assert (Hm : mounted [ChangeFile [brief]; ClickUpload] boot)
    by (repeat split; vm_compute; discriminate).
  assert (Hone : in_flight (steps [ChangeFile [brief]; ClickUpload] boot)
                 = 1%nat) by reflexivity.
  split; [exact Hm|]. split; [exact Hone|].
  destruct (spinner_iff_attempt_in_flight [ChangeFile [brief]; ClickUpload] Hm)
    as (v & Hv & (_ & H) & _).
  exists v. split; [exact Hv | exact (H Hone)].
Defined.

Lemma count_related_pos (l : list request) :
  count_related l <> 0%nat ->
  exists i r, l !! i = Some r /\ upload_related r = true.
Proof.
  induction l as [|x l IH]; cbn; [congruence|].
  destruct (upload_related x) eqn:Hx.
  - intros _. exists 0%nat, x. split; [reflexivity | exact Hx].
  - intros H. destruct (IH H) as (i & r & Hi & Hr).
    exists (S i), r. split; assumption.
Qed.

(** X14: the button never stays disabled for good.  After any inputs,
    if the in-progress flag is set then some outstanding request is the
    one of the attempt in flight, and once that request ends, and then,
    when it was a passing probe, the upload call that follows, whatever
    their outcomes, the flag is unset again. *)
Theorem attempt_always_ends (inputs : list input) :
  let s := steps inputs boot in
  isUploading (st s) = true ->
  exists i : nat,
    (i < length (pending s))%nat
    /\ forall o1 o2 : outcome,
         let s1 := settle i o1 s in
         isUploading (st s1) = false
         \/ isUploading (st (settle (length (pending s1) - 1) o2 s1)) = false.
Proof.
  intros s Hbusy. subst s.
  destruct (page_busy_reachable inputs) as ((Hok & _ & _) & Hb).
  specialize (Hb Hbusy). unfold in_flight, awaited in Hb.
  destruct (count_related_pos (map fst (pending (steps inputs boot))))
    as (i & r & Hi & Hr); [lia|].
  rewrite list_lookup_fmap in Hi.
  destruct (pending (steps inputs boot) !! i) as [[r0 k]|] eqn:Hpi;
    [|discriminate].
  cbn in Hi. injection Hi as ->.
  exists i. split; [apply (lookup_lt_Some _ _ _ Hpi)|].
  intros o1 o2 s1. subst s1. unfold settle at 1 3 4. rewrite Hpi.
  pose proof (proj1 (Forall_lookup _ _) Hok i (r, k) Hpi) as Htask.
  unfold task_ok in Htask. cbn [fst snd] in Htask. rewrite Hr in Htask.
  match goal with
  | |- context [run (k o1) ?x] =>
      destruct (Htask o1 x) as [(_ & Hu) | (r' & k' & Hp & _ & Hk' & _)];
      [left; exact Hu|]; set (s1 := run (k o1) x) in *
  end.
  right. destruct s1 as [st1 p1 tr1]. cbn [pending] in Hp. subst p1.
  cbn [pending]. rewrite length_app. cbn [length].
  replace (length (delete i (pending (steps inputs boot))) + 1 - 1)%nat
    with (length (delete i (pending (steps inputs boot)))) by lia.
  rewrite settle_last. apply Hk'.
Qed.

Lemma attempt_always_ends_witness :
  isUploading (st (steps [ChangeFile [brief]; ClickUpload] boot)) = true
  /\ exists i : nat,
       (i < length (pending (steps [ChangeFile [brief]; ClickUpload] boot)))%nat.
Proof.
  split; [reflexivity|].
  destruct (attempt_always_ends [ChangeFile [brief]; ClickUpload] eq_refl)
    as (i & Hi & _).
  exists i. exact Hi.
Defined.

(** ** More on the retry policy *)

Lemma retryCondition_false (err : jserror) (r : response) :
  err_response err = Some r ->
  code err <> JStr (lit "ECONNREFUSED") ->
  Transport.retryCondition Transport.config err = false.
Proof.
  intros Hr Hc.
  destruct (Transport.retryCondition Transport.config err) eqn:H;
    [|reflexivity].
  apply retryCondition_spec in H. destruct H as [H | H]; congruence.
Qed.

(** X15: a call the service has answered is never repeated.  A 2xx
    answer, and a failure that carries a response (an error status)
    and is not connection-refused, are handed to the caller after that
    one attempt, without any pause, whatever would have come next. *)
Theorem answered_call_not_repeated (rest : list outcome) :
  (forall res : response,
     Transport.axios (Resolved res :: rest)
     = ([Transport.Attempt], Some (Resolved res)))
  /\ (forall (err : jserror) (r : response),
        err_response err = Some r ->
        code err <> JStr (lit "ECONNREFUSED") ->
        Transport.axios (Rejected err :: rest)
        = ([Transport.Attempt], Some (Rejected err))).
Proof.
  split.
  - intros res. reflexivity.
  - intros err r Hr Hc. unfold Transport.axios. cbn [Transport.send].
    rewrite (retryCondition_false err r Hr Hc). reflexivity.
Qed.

Lemma answered_call_not_repeated_witness :
  Transport.axios
    [Rejected {| message := lit "Request failed with status code 500";
                 code := JStr (lit "ERR_BAD_RESPONSE");
                 err_response := Some {| data := JNull; status := 500 |} |};
     Resolved healthy]
  = ([Transport.Attempt],
     Some (Rejected
             {| message := lit "Request failed with status code 500";
                code := JStr (lit "ERR_BAD_RESPONSE");
                err_response := Some {| data := JNull; status := 500 |} |})).
Proof.
  destruct (answered_call_not_repeated [Resolved healthy]) as (_ & H).
  apply (H _ {| data := JNull; status := 500 |}); [reflexivity|].
  vm_compute. discriminate.
Defined.

Lemma sum_linear_delays (n m : nat) :
  2 * fold_right Z.add 0 (map (fun k => Z.of_nat k * 1000) (seq n m))
  = 1000 * Z.of_nat m * (2 * Z.of_nat n + Z.of_nat m - 1).
Proof.
  revert n. induction m as [|m IH]; intros n; cbn [seq map fold_right].
  - lia.
  - specialize (IH (S n)). nia.
Qed.

(** X16: the pauses of one call add up to [500 * m * (m + 1)] ms for
    [m] retries, so to 6 seconds at most. *)
Theorem total_delay_bounded (attempts : list outcome) :
  let acts := (Transport.axios attempts).1 in
  let m := Z.of_nat (length (Transport.delays acts)) in
  total_delay acts = 500 * m * (m + 1)
  /\ 0 <= total_delay acts <= 6000.
Proof.
  pose proof (send_spec attempts 0 ltac:(lia)) as H.
  unfold Transport.axios. cbv zeta in *.
  destruct H as (Hb & _ & Hd & _).
  set (acts := (Transport.send Transport.config 0 attempts).1) in *.
  unfold total_delay.
  pose proof (sum_linear_delays 1 (length (Transport.delays acts))) as Hsum.
  rewrite <- Hd in Hsum. split; nia.
Qed.

(** ** What the operator sees after an exchange with the service *)

(** X18: after an accepted upload made while the page is displayed, the
    page shows the check mark, the enabled button, no error, the
    summary (the one of the answer, or the default text) and the
    empty-conversation placeholder, exactly when that summary is a
    valid React child; with a summary that is a plain object the page
    is unmounted. *)
Theorem accepted_upload_is_displayed (s : sys) (f : File) (r res : response) :
  file (st s) = FileObj f ->
  invalid_body (data res) = false ->
  displayed (st s) <> None ->
  let s' := upload (Resolved r) (Resolved res) s in
  let shown_summary :=
    js_or (opt_prop (data res) (lit "summary"))
      (JStr (lit "No summary available.")) in
  (valid_child shown_summary = true ->
   exists v, displayed (st s') = Some v
             /\ status_indicator v = CheckMark
             /\ upload_disabled v = false
             /\ upload_label v = lit "Upload & Analyze"
             /\ error_paragraph v = Handed (JStr (lit ""))
             /\ summary_section v = Shown shown_summary
             /\ chat_area v = Placeholder)
  /\ (valid_child shown_summary = false -> displayed (st s') = None).
Proof.
  intros Hfile Hok _ s' shown_summary. subst s' shown_summary.
  rewrite (upload_body_accepted s f Hfile r res Hok).
  cbn [st]. unfold displayed, valid_state.
  cbn [upload_succeeded error summary chatLog forallb].
  change (valid_child (JStr (lit ""))) with true.
  rewrite andb_true_l, andb_true_r. split.
  - intros ->. eexists. split; [reflexivity|].
    cbn [render upload_succeeded isUploading uploadStatus error summary
         chatLog upload_disabled upload_label status_indicator
         error_paragraph summary_section chat_area].
    repeat split; try reflexivity.
    apply js_and_element_truthy, js_or_truthy. reflexivity.
  - intros ->. reflexivity.
Qed.

Lemma accepted_upload_is_displayed_witness :
  file (st selected) = FileObj brief
  /\ invalid_body sample_upload_body = false
  /\ displayed (st selected) <> None
  /\ exists v,
       displayed (st uploaded) = Some v
       /\ summary_section v = Shown (JStr (lit "S")).
Proof.
  assert (Hshown : displayed (st selected) <> None)
    by (vm_compute; discriminate).
  split; [reflexivity|]. split; [reflexivity|]. split; [exact Hshown|].
  destruct (accepted_upload_is_displayed selected brief healthy
              {| data := sample_upload_body; status := 200 |}
              eq_refl eq_refl Hshown) as (H & _).
  destruct (H eq_refl) as (v & Hv & _ & _ & _ & _ & Hsum & _).
  exists v. split; [exact Hv|].
  etransitivity; [exact Hsum|]. vm_compute. reflexivity.
Defined.

Lemma asked_display (c e : jsval) (s0 : State) :
  valid_state s0 = true ->
  e = JStr (lit "") \/ e = c ->
  (valid_child c = true ->
   exists v,
     displayed (asked c e s0) = Some v
     /\ chat_area v
        = Messages
            (map (fun msg => (role_label (role msg), turn_content msg))
               (chatLog s0)
             ++ [(lit "Counsel", JStr (userMessage s0));
                 (lit "Assistant", c)])
     /\ inquiry_value v = lit "")
  /\ (valid_child c = false -> displayed (asked c e s0) = None).
Proof.
  intros Hvalid He. unfold displayed.
  rewrite (valid_state_asked c e s0 Hvalid He). split.
  - intros ->. eexists. split; [reflexivity|]. split; [|reflexivity].
    cbn [render chat_area asked chatLog].
    destruct (chatLog s0) as [|t l]; [reflexivity|].
    cbn [app map]. rewrite map_app. reflexivity.
  - intros ->. reflexivity.
Qed.

(** X19: a finished inquiry, made while the page is displayed and
    carried to its end with nothing in between, shows the earlier
    paragraphs followed by one labelled [Counsel] with the text sent
    and one labelled [Assistant] with the reply or the failure message,
    and an emptied inquiry input, exactly when that reply or message is
    a valid React child; with a plain object there the page is
    unmounted. *)
Theorem finished_inquiry_is_displayed (s : sys) (o : outcome) :
  trim (userMessage (st s)) <> [] ->
  displayed (st s) <> None ->
  let row := fun msg : Turn => (role_label (role msg), turn_content msg) in
  let s' := ask o s in
  (valid_child (exchange_end o) = true ->
   exists v,
     displayed (st s') = Some v
     /\ chat_area v
        = Messages
            (map row (chatLog (st s))
             ++ [(lit "Counsel", JStr (userMessage (st s)));
                 (lit "Assistant", exchange_end o)])
     /\ inquiry_value v = lit "")
  /\ (valid_child (exchange_end o) = false -> displayed (st s') = None).
Proof.
  intros Htext Hshown row s'. subst row s'.
  apply displayed_valid in Hshown.
  destruct o as [res|err].
  - unfold exchange_end.
    destruct (get_prop (data res) (lit "reply")) as [reply|] eqn:Hreply.
    + rewrite (ask_replied s Htext res reply Hreply). cbn [st].
      apply asked_display; [exact Hshown | left; reflexivity].
    + rewrite (ask_unreadable s Htext res Hreply). cbn [st].
      apply (asked_display (JStr chat_failure_message)
               (JStr chat_failure_message) (st s) Hshown).
      right. reflexivity.
  - rewrite (ask_rejected s Htext err). cbn [st exchange_end].
    apply asked_display; [exact Hshown | right; reflexivity].
Qed.

Lemma finished_inquiry_is_displayed_witness :
  trim (userMessage (st question)) <> []
  /\ displayed (st question) <> None
  /\ exists v,
       displayed
         (st (ask (Resolved {| data := JObj {[lit "reply" :=
                                                JStr (lit "Pending")]};
                               status := 200 |}) question)) = Some v
       /\ chat_area v
          = Messages [(lit "Counsel", JStr (lit "What is the verdict?"));
                      (lit "Assistant", JStr (lit "Pending"))].
Proof.
  assert (H1 : trim (userMessage (st question)) <> [])
    by (vm_compute; discriminate).
  assert (Hshown : displayed (st question) <> None)
    by (vm_compute; discriminate).
  split; [exact H1|]. split; [exact Hshown|].
  destruct (finished_inquiry_is_displayed question
              (Resolved {| data := JObj {[lit "reply" := JStr (lit "Pending")]};
                           status := 200 |}) H1 Hshown) as (H & _).
  destruct (H eq_refl) as (v & Hv & Hchat & _).
  exists v. split; [exact Hv|].
  etransitivity; [exact Hchat|]. vm_compute. reflexivity.
Defined.

(** ** When the upload endpoint is called *)

(** X20: an attempt calls the upload endpoint exactly when a document
    is selected and the probe is answered with a 2xx status, and then
    exactly once, after the probe; what the probe's answer holds plays
    no part. *)
Theorem upload_called_iff_probe_passes (s : sys) (probe post : outcome) :
  requests (trace (upload probe post s))
  = requests (trace s)
    ++ match file (st s), probe with
       | FileObj f, Resolved _ => [health_request; upload_request f]
       | FileObj _, Rejected _ => [health_request]
       | _, _ => []
       end.
Proof.
  destruct (file (st s)) as [| |f] eqn:Hfile.
  1,2: rewrite (upload_no_file s probe post)
         by (intros f; rewrite Hfile; discriminate);
       cbn [trace]; rewrite requests_app; reflexivity.
  destruct probe as [r|err].
  - destruct post as [res|err].
    + destruct (invalid_body (data res)) eqn:Hbody.
      * rewrite (upload_body_rejected s f Hfile r res Hbody).
        cbn [trace]. rewrite requests_app. reflexivity.
      * rewrite (upload_body_accepted s f Hfile r res Hbody).
        cbn [trace]. rewrite requests_app. reflexivity.
    + rewrite (upload_post_rejected s f Hfile r err).
      cbn [trace]. rewrite requests_app. reflexivity.
  - rewrite (upload_probe_rejected s f Hfile err post).
    cbn [trace]. rewrite requests_app. reflexivity.
Qed.

(** ** Repeating an attempt *)

(** X21: an attempt can be repeated safely: made again with the same
    outcomes, it leaves the state exactly as the first one did,
    whichever way it ends. *)
Theorem repeated_upload_same_state (s : sys) (probe post : outcome) :
  st (upload probe post (upload probe post s)) = st (upload probe post s).
Proof.
  destruct (file (st s)) as [| |f] eqn:Hfile.
  1,2: assert (Hno : forall f, file (st s) <> FileObj f)
         by (intros f; rewrite Hfile; discriminate);
       rewrite (upload_no_file s probe post Hno);
       match goal with
       | |- context [upload ?p ?q ?x] =>
           rewrite (upload_no_file x p q)
             by (intros f; cbn; rewrite Hfile; discriminate)
       end; reflexivity.
  destruct probe as [r|err].
  - destruct post as [res|err].
    + destruct (invalid_body (data res)) eqn:Hbody.
      * rewrite (upload_body_rejected s f Hfile r res Hbody).
        match goal with
        | |- context [upload _ _ ?x] =>
            rewrite (upload_body_rejected x f Hfile r res Hbody)
        end. reflexivity.
      * rewrite (upload_body_accepted s f Hfile r res Hbody).
        match goal with
        | |- context [upload _ _ ?x] =>
            rewrite (upload_body_accepted x f Hfile r res Hbody)
        end. reflexivity.
    + rewrite (upload_post_rejected s f Hfile r err).
      match goal with
      | |- context [upload _ _ ?x] =>
          rewrite (upload_post_rejected x f Hfile r err)
      end. reflexivity.
  - rewrite (upload_probe_rejected s f Hfile err post).
    match goal with
    | |- context [upload _ _ ?x] =>
        rewrite (upload_probe_rejected x f Hfile err post)
    end. reflexivity.
Qed.

(** ** The shape of the log *)

Lemma answered_in_place_nil : answered_in_place [].
Proof. intros i t Hi. discriminate. Qed.

Lemma answered_in_place_user (l : list Turn) (u : Turn) :
  role u = user -> answered_in_place l -> answered_in_place (l ++ [u]).
Proof.
  intros Hu Hl i t Hi Ht.
  destruct (decide (i < length l)%nat) as [Hlt | Hge].
  - rewrite lookup_app_l in Hi by exact Hlt.
    destruct (Hl i t Hi Ht) as (j & v & -> & Hj & Hv).
    exists j, v. split; [reflexivity|]. split; [|exact Hv].
    rewrite lookup_app_l by lia. exact Hj.
  - rewrite lookup_app_r in Hi by lia.
    destruct (i - length l)%nat as [|n]; [|discriminate].
    cbn in Hi. injection Hi as <-. congruence.
Qed.

Lemma answered_in_place_exchange (l : list Turn) (u a : Turn) :
  role u = user -> answered_in_place l -> answered_in_place (l ++ [u; a]).
Proof.
  intros Hu Hl.
  change (l ++ [u; a]) with (l ++ [u] ++ [a]). rewrite app_assoc.
  pose proof (answered_in_place_user l u Hu Hl) as Hlu.
  intros i t Hi Ht.
  destruct (decide (i < length (l ++ [u]))%nat) as [Hlt | Hge].
  - rewrite lookup_app_l in Hi by exact Hlt.
    destruct (Hlu i t Hi Ht) as (j & v & -> & Hj & Hv).
    exists j, v. split; [reflexivity|]. split; [|exact Hv].
    rewrite lookup_app_l by lia. exact Hj.
  - rewrite lookup_app_r in Hi by lia.
    destruct (i - length (l ++ [u]))%nat as [|n] eqn:Hn; [|discriminate].
    assert (Hi' : i = S (length l))
      by (rewrite length_app in *; cbn in *; lia).
    exists (length l), u. split; [exact Hi'|]. split; [|exact Hu].
    rewrite lookup_app_l by (rewrite length_app; cbn; lia).
    apply list_lookup_middle. reflexivity.
Qed.

(** X22: after any inputs, overlapping inquiries and uploads included,
    every assistant turn of the log stands directly after an operator
    turn; in particular the log never begins with an assistant turn. *)
Theorem assistant_turn_follows_operator (inputs : list input) :
  answered_in_place (chatLog (st (steps inputs boot))).
Proof.
  apply (page_rule (fun s => answered_in_place (chatLog s))).
  - apply answered_in_place_nil.
  - intros files s Hs. exact Hs.
  - intros s Hs _. unfold handleUpload. destruct (file s) as [| |f];
      [exact Hs | exact Hs |].
    cbn [preserves checkServerHealth]. split; [exact Hs|].
    intros o s1 Hs1. destruct o as [r|err]; cbn [preserves negb];
      [|exact Hs1].
    split; [exact Hs1|].
    intros o s2 Hs2. destruct o as [res|err]; [|exact Hs2].
    cbn [preserves]. destruct (invalid_body (data res)); [exact Hs2|].
    unfold read.
    destruct (get_prop (data res) (lit "summary")); [|exact Hs2].
    cbn [preserves].
    destruct (get_prop (data res) (lit "case_id")); [|exact Hs2].
    cbn [preserves].
    destruct (get_prop (data res) (lit "filename")); [|exact Hs2].
    cbn. apply answered_in_place_nil.
  - intros s Hs. unfold handleSendMessage.
    destruct (trim (userMessage s)); [exact Hs|].
    cbn [preserves apply_setter chatLog]. split.
    + apply answered_in_place_user; [reflexivity | exact Hs].
    + intros o s1 _. destruct o as [res|err].
      * unfold read. destruct (get_prop (data res) (lit "reply"));
          cbn; rewrite <- app_assoc;
          apply answered_in_place_exchange; (reflexivity || exact Hs).
      * cbn. rewrite <- app_assoc.
        apply answered_in_place_exchange; [reflexivity | exact Hs].
  - intros v s Hs. exact Hs.
Qed.
